(** * Petal Parlour: the browser client's scripts, embedded and verified

    The development follows the two script modules of the client,
    [src/js/login.js] (API client, credential store, registration and
    login forms) and [src/js/post.js] (post creation, update, deletion,
    the paginated feed and the detail view).

    The scripts are JavaScript run by a browser.  Their values are
    modelled by [JSValue], the expression forms they use ([||], [?.],
    property reads, template literals) by functions on that type, and
    their effects (local storage, the document, alerts, navigation, the
    network) by a state-and-exception monad [M] over a [World].
    Parameters that the scripts document as strings or numbers are
    strings and integers here; values that come out of a JSON body are
    [JSValue]s. *)

From Stdlib Require Import Ascii String ZArith List Lia.
From stdpp Require Import gmap strings list pretty.

Set Warnings "-register-all".
Open Scope string_scope.
Open Scope Z_scope.

(** ** JavaScript values

    The values JSON.parse produces, and [undefined]. Strings are
    sequences of code units below 256. Numbers are the integers the
    payloads of this API carry (status codes, counts, ids), of a size
    that prints as a plain decimal numeral. Objects are finite maps from
    property names; they hold data only, so no property of theirs is
    callable. *)

Inductive JSValue : Type :=
  | JUndefined
  | JNull
  | JBool (b : bool)
  | JNum (n : Z)
  | JStr (s : string)
  | JArr (l : list JSValue)
  | JObj (m : gmap string JSValue).

(** ToBoolean. *)
Definition truthy (v : JSValue) : bool :=
  match v with
  | JUndefined | JNull => false
  | JBool b => b
  | JNum n => negb (n =? 0)
  | JStr s => negb (String.eqb s "")
  | JArr _ | JObj _ => true
  end.

(** [a || b] *)
Definition js_or (a b : JSValue) : JSValue := if truthy a then a else b.

Definition is_nullish (v : JSValue) : bool :=
  match v with
  | JUndefined | JNull => true
  | _ => false
  end.

(** ** Responses and thrown values *)

(** What [response.json()] settles to: the parsed body, or the parser's
    SyntaxError with its message. *)
Inductive JsonBody : Type :=
  | Unparsable (parser_message : string)
  | Parsed (v : JSValue).

Record Response : Type := mkResponse {
  status : Z;
  json_body : JsonBody
}.

(** [response.ok] *)
Definition ok (r : Response) : bool := (200 <=? status r) && (status r <=? 299).

(** Values the scripts throw or reject with: Error instances (with their
    [name] and [message]) and, in [fetchPosts] and [fetchSinglePost], the
    Response itself. *)
Inductive Thrown : Type :=
  | ErrorObject (name message : string)
  | RejectedResponse (r : Response).

(** [error.message] as it reads after ["..." +]: the message of an
    Error, [undefined] for a rejected Response. *)
Definition thrown_message (e : Thrown) : string :=
  match e with
  | ErrorObject _ msg => msg
  | RejectedResponse _ => "undefined"
  end.

(** [error] as it reads after ["..." +] (Error.prototype.toString). *)
Definition thrown_to_string (e : Thrown) : string :=
  match e with
  | ErrorObject name msg =>
      if String.eqb name "" then msg
      else if String.eqb msg "" then name
      else name ++ ": " ++ msg
  | RejectedResponse _ => "[object Response]"
  end.

(** The result of evaluating an expression: a value, or a thrown
    value. *)
Inductive Result (A : Type) : Type :=
  | Val (a : A)
  | Err (e : Thrown).
Arguments Val {A} a.
Arguments Err {A} e.

#[global] Instance Result_ret : MRet Result := fun _ a => Val a.
#[global] Instance Result_bind : MBind Result :=
  fun _ _ k c =>
    match c with
    | Val a => k a
    | Err e => Err e
    end.

Definition squote : string := String (ascii_of_nat 39) EmptyString.
Definition dquote : string := String (ascii_of_nat 34) EmptyString.

(** The TypeErrors of the engine (in V8's wording): reading or writing a
    property of [null] or [undefined], and converting to a string an
    object that has no usable [toString]. *)
Definition read_of_nullish (what prop : string) : Thrown :=
  ErrorObject "TypeError"
    ("Cannot read properties of " ++ what ++ " (reading " ++ squote ++ prop ++ squote ++ ")").

Definition write_of_null (prop : string) : Thrown :=
  ErrorObject "TypeError"
    ("Cannot set properties of null (setting " ++ squote ++ prop ++ squote ++ ")").

Definition cannot_convert : Thrown :=
  ErrorObject "TypeError" "Cannot convert object to primitive value".

(** ToString, as applied by template literals, [new Error(message)] and
    [localStorage.setItem]. An object prints through the [toString] it
    inherits; an own property of that name, which is data and cannot be
    called, leaves it without conversion. An array joins the strings of
    its elements. *)
Fixpoint to_string (v : JSValue) : Result string :=
  match v with
  | JUndefined => Val "undefined"
  | JNull => Val "null"
  | JBool b => Val (if b then "true" else "false")
  | JNum n => Val (pretty n)
  | JStr s => Val s
  | JArr l =>
      parts ← (fix join (l : list JSValue) : Result (list string) :=
                 match l with
                 | [] => Val []
                 | x :: l' =>
                     s ← match x with
                         | JUndefined | JNull => Val EmptyString
                         | _ => to_string x
                         end;
                     ss ← join l';
                     Val (s :: ss)
                 end) l;
      Val (String.concat "," parts)
  | JObj m =>
      match m !! "toString" with
      | Some _ => Err cannot_convert
      | None => Val "[object Object]"
      end
  end.

(** [v.prop] for the properties the scripts read ([message], [data],
    [accessToken], [meta], [isLastPage], [tags], [_count], [reactions],
    [author], [name], [media], [url], [alt], [title], [body], [created],
    [id]): own data of an object, [undefined] on any other value but
    [null] and [undefined]. [length] is given to strings and arrays. *)
Definition get_prop (v : JSValue) (prop : string) : Result JSValue :=
  match v with
  | JUndefined => Err (read_of_nullish "undefined" prop)
  | JNull => Err (read_of_nullish "null" prop)
  | JObj m => Val (default JUndefined (m !! prop))
  | JArr l =>
      Val (if String.eqb prop "length" then JNum (Z.of_nat (length l)) else JUndefined)
  | JStr s =>
      Val (if String.eqb prop "length" then JNum (Z.of_nat (String.length s)) else JUndefined)
  | JBool _ | JNum _ => Val JUndefined
  end.

(** [v[i]] for an index [i]. *)
Definition get_index (v : JSValue) (i : nat) : Result JSValue :=
  match v with
  | JUndefined => Err (read_of_nullish "undefined" (pretty i))
  | JNull => Err (read_of_nullish "null" (pretty i))
  | JObj m => Val (default JUndefined (m !! pretty i))
  | JArr l => Val (default JUndefined (l !! i))
  | JStr s =>
      Val (match String.get i s with
              | Some c => JStr (String c EmptyString)
              | None => JUndefined
              end)
  | JBool _ | JNum _ => Val JUndefined
  end.

(** [v?.prop] and [v?.[i]] *)
Definition opt_prop (v : JSValue) (prop : string) : JSValue :=
  if is_nullish v then JUndefined
  else match get_prop v prop with
       | Val x => x
       | _ => JUndefined
       end.

Definition opt_index (v : JSValue) (i : nat) : JSValue :=
  if is_nullish v then JUndefined
  else match get_index v i with
       | Val x => x
       | _ => JUndefined
       end.

(** ** The page: document, storage, network *)

(** Listeners the scripts bind to a form's submit event. *)
Inductive Listener : Type :=
  | L_createPost
  | L_updatePost
  | L_other (name : string).

#[global] Instance Listener_eq_dec : EqDecision Listener.
Proof. solve_decision. Defined.

(** A card built by [displayPosts]: its class list, its markup, and the
    [post.id] its click listener will read to navigate to
    [post.html?id=...]. *)
Record PostCard : Type := mkPostCard {
  classList : list string;
  card_innerHTML : string;
  click_id : JSValue
}.

(** Content of an element: markup assigned through [innerHTML] (or
    present in the page), or an appended card. *)
Inductive Node : Type :=
  | Markup (html : string)
  | Card (c : PostCard).

(** An element of the document, with the properties the scripts touch.
    [form_owner] names the form a control belongs to and [defaultValue]
    is what [form.reset()] restores. *)
Record Element : Type := mkElement {
  value : string;
  defaultValue : string;
  form_owner : option string;
  textContent : string;
  disabled : bool;
  childNodes : list Node;
  submit_listeners : list Listener
}.

(** A request handed to [fetch]. [body] is the value that
    JSON.stringify serialises into the request body. *)
Record Request : Type := mkRequest {
  url : string;
  method : string;
  headers : list (string * string);
  body : option JSValue
}.

(** How a [fetch] settles: rejection on a network failure, or a
    response. *)
Inductive FetchResult : Type :=
  | NetworkFailure (message : string)
  | Responded (r : Response).

Record World : Type := mkWorld {
  localStorage : gmap string string;
  document : gmap string Element;       (* elements by id *)
  document_title : string;
  location_href : string;
  alerts : list string;                 (* messages shown, oldest first *)
  console_errors : list string;
  requests : list Request;              (* requests issued, oldest first *)
  network : list FetchResult;           (* how the coming requests settle *)
  clock_iso : string;                   (* new Date().toISOString() *)
  toLocaleDateString : JSValue -> string (* new Date(v).toLocaleDateString() *)
}.

(** The outcome of running a piece of script: a value, a thrown value,
    or [Pending] when it awaits a request that never settles. *)
Inductive Completion (A : Type) : Type :=
  | Normal (a : A)
  | Throw (e : Thrown)
  | Pending.
Arguments Normal {A} a.
Arguments Throw {A} e.
Arguments Pending {A}.

Definition M (A : Type) : Type := World -> Completion A * World.

Definition ret {A} (a : A) : M A := fun w => (Normal a, w).

Definition bind {A B} (m : M A) (k : A -> M B) : M B :=
  fun w =>
    match m w with
    | (Normal a, w') => k a w'
    | (Throw e, w') => (Throw e, w')
    | (Pending, w') => (Pending, w')
    end.

Notation "x <- m ;; k" := (bind m (fun x => k))
  (at level 100, m at next level, k at level 200, right associativity).
Notation "m ;;; k" := (bind m (fun _ => k))
  (at level 100, k at level 200, right associativity).

Definition throw {A} (e : Thrown) : M A := fun w => (Throw e, w).

(** An expression evaluated in the running script. *)
Definition lift {A} (c : Result A) : M A :=
  fun w => (match c with
            | Val a => Normal a
            | Err e => Throw e
            end, w).

(** [try { m } catch (e) { h e }], and a promise chain ending in
    [.catch(h)]. *)
Definition try_catch {A} (m : M A) (h : Thrown -> M A) : M A :=
  fun w =>
    match m w with
    | (Throw e, w') => h e w'
    | r => r
    end.

(** Worlds that differ from [w] in one field. *)
Definition with_storage (st : gmap string string) (w : World) : World :=
  mkWorld st (document w) (document_title w) (location_href w)
          (alerts w) (console_errors w) (requests w) (network w)
          (clock_iso w) (toLocaleDateString w).

Definition with_document (d : gmap string Element) (w : World) : World :=
  mkWorld (localStorage w) d (document_title w) (location_href w)
          (alerts w) (console_errors w) (requests w) (network w)
          (clock_iso w) (toLocaleDateString w).

Definition with_title (t : string) (w : World) : World :=
  mkWorld (localStorage w) (document w) t (location_href w)
          (alerts w) (console_errors w) (requests w) (network w)
          (clock_iso w) (toLocaleDateString w).

Definition with_href (target : string) (w : World) : World :=
  mkWorld (localStorage w) (document w) (document_title w) target
          (alerts w) (console_errors w) (requests w) (network w)
          (clock_iso w) (toLocaleDateString w).

Definition with_alerts (msgs : list string) (w : World) : World :=
  mkWorld (localStorage w) (document w) (document_title w) (location_href w)
          msgs (console_errors w) (requests w) (network w)
          (clock_iso w) (toLocaleDateString w).

Definition with_console_errors (labels : list string) (w : World) : World :=
  mkWorld (localStorage w) (document w) (document_title w) (location_href w)
          (alerts w) labels (requests w) (network w)
          (clock_iso w) (toLocaleDateString w).

Definition with_requests (reqs : list Request) (w : World) : World :=
  mkWorld (localStorage w) (document w) (document_title w) (location_href w)
          (alerts w) (console_errors w) reqs (network w)
          (clock_iso w) (toLocaleDateString w).

Definition with_network (net : list FetchResult) (w : World) : World :=
  mkWorld (localStorage w) (document w) (document_title w) (location_href w)
          (alerts w) (console_errors w) (requests w) net
          (clock_iso w) (toLocaleDateString w).

Definition update_world_storage (f : gmap string string -> gmap string string) : M unit :=
  fun w => (Normal tt, with_storage (f (localStorage w)) w).

Definition update_world_document (f : gmap string Element -> gmap string Element) : M unit :=
  fun w => (Normal tt, with_document (f (document w)) w).

(** [document.title = t] *)
Definition set_document_title (t : string) : M unit :=
  fun w => (Normal tt, with_title t w).

(** [window.location.href = target] *)
Definition set_location_href (target : string) : M unit :=
  fun w => (Normal tt, with_href target w).

(** [alert(msg)] *)
Definition alert (msg : string) : M unit :=
  fun w => (Normal tt, with_alerts (alerts w ++ [msg]) w).

(** [console.error(label, ...)] *)
Definition console_error (label : string) : M unit :=
  fun w => (Normal tt, with_console_errors (console_errors w ++ [label]) w).

(** [await fetch(url, init)]: the request goes out; the script resumes
    with the response, or with the rejection thrown, when the network
    settles it, and stays pending when it never does. *)
Definition fetch (req : Request) : M Response :=
  fun w =>
    let sent rest := with_network rest (with_requests (requests w ++ [req]) w) in
    match network w with
    | [] => (Pending, sent [])
    | NetworkFailure msg :: rest => (Throw (ErrorObject "TypeError" msg), sent rest)
    | Responded r :: rest => (Normal r, sent rest)
    end.

(** [await response.json()] *)
Definition response_json (r : Response) : M JSValue :=
  match json_body r with
  | Unparsable msg => throw (ErrorObject "SyntaxError" msg)
  | Parsed v => ret v
  end.

(** [event.preventDefault()]: the browser's own submission is not part
    of the model. *)
Definition preventDefault : M unit := ret tt.

(** *** localStorage *)

(** [localStorage.getItem(key)]: the stored string, or [null]. *)
Definition localStorage_getItem (key : string) : M (option string) :=
  fun w => (Normal (localStorage w !! key), w).

(** [localStorage.setItem(key, v)]: the value is stored as a string. *)
Definition localStorage_setItem (key : string) (v : JSValue) : M unit :=
  s <- lift (to_string v) ;;
  update_world_storage (fun st => <[key := s]> st).

(** [!item] and [`${item}`] for what [getItem] returned. *)
Definition item_missing (item : option string) : bool :=
  match item with
  | Some s => String.eqb s ""
  | None => true
  end.

Definition item_to_string (item : option string) : string :=
  match item with
  | Some s => s
  | None => "null"
  end.

Definition localStorage_removeItem (key : string) : M unit :=
  update_world_storage (fun st => delete key st).

(** *** document *)

(** [document.getElementById(id)], as a test for presence. *)
Definition getElementById (id : string) : M (option Element) :=
  fun w => (Normal (document w !! id), w).

(** [document.getElementById(id).prop] read through [proj]. *)
Definition element_get {A} (id prop : string) (proj : Element -> A) : M A :=
  fun w =>
    match document w !! id with
    | Some e => (Normal (proj e), w)
    | None => (Throw (read_of_nullish "null" prop), w)
    end.

(** [document.getElementById(id).prop = ...] written through [upd]. *)
Definition element_set (id prop : string) (upd : Element -> Element) : M unit :=
  fun w =>
    match document w !! id with
    | Some e => update_world_document (fun d => <[id := upd e]> d) w
    | None => (Throw (write_of_null prop), w)
    end.

Definition with_value (s : string) (e : Element) : Element :=
  mkElement s (defaultValue e) (form_owner e) (textContent e) (disabled e)
            (childNodes e) (submit_listeners e).

Definition with_textContent (s : string) (e : Element) : Element :=
  mkElement (value e) (defaultValue e) (form_owner e) s (disabled e)
            (childNodes e) (submit_listeners e).

Definition with_disabled (b : bool) (e : Element) : Element :=
  mkElement (value e) (defaultValue e) (form_owner e) (textContent e) b
            (childNodes e) (submit_listeners e).

Definition with_childNodes (ns : list Node) (e : Element) : Element :=
  mkElement (value e) (defaultValue e) (form_owner e) (textContent e) (disabled e)
            ns (submit_listeners e).

Definition with_listeners (ls : list Listener) (e : Element) : Element :=
  mkElement (value e) (defaultValue e) (form_owner e) (textContent e) (disabled e)
            (childNodes e) ls.

(** [el.innerHTML = html]: the element's content is replaced by the
    markup; the empty string leaves it without content. *)
Definition set_innerHTML (id : string) (html : string) : M unit :=
  element_set id "innerHTML"
    (with_childNodes (if String.eqb html "" then [] else [Markup html])).

(** [el.appendChild(card)] *)
Definition appendChild (id : string) (c : PostCard) : M unit :=
  element_set id "appendChild" (fun e => with_childNodes (childNodes e ++ [Card c]) e).

(** [form.addEventListener("submit", l)]: a listener already bound is
    not bound twice. *)
Definition addEventListener (id : string) (l : Listener) : M unit :=
  element_set id "addEventListener"
    (fun e => with_listeners
                (if bool_decide (l ∈ submit_listeners e) then submit_listeners e
                 else submit_listeners e ++ [l]) e).

(** [form.removeEventListener("submit", l)] *)
Definition removeEventListener (id : string) (l : Listener) : M unit :=
  element_set id "removeEventListener"
    (fun e => with_listeners (filter (fun x => x ≠ l) (submit_listeners e)) e).

(** [form.reset()]: every control owned by the form goes back to its
    default value. *)
Definition form_reset (id : string) : M unit :=
  fun w =>
    match document w !! id with
    | Some _ =>
        update_world_document
          (fmap (fun e => if bool_decide (form_owner e = Some id)
                          then with_value (defaultValue e) e else e)) w
    | None => (Throw (read_of_nullish "null" "reset"), w)
    end.

(** ** Strings and regular expressions *)

(** WhiteSpace and LineTerminator code units, as removed by
    [String.prototype.trim]: TAB, LF, VT, FF, CR, SP and NBSP. *)
Definition is_white_space (c : ascii) : bool :=
  let n := N_of_ascii c in
  ((9 <=? n) && (n <=? 13) || (n =? 32) || (n =? 160))%N.

Fixpoint trim_start (l : list ascii) : list ascii :=
  match l with
  | c :: l' => if is_white_space c then trim_start l' else l
  | [] => []
  end.

(** [s.trim()] *)
Definition trim (s : string) : string :=
  string_of_list_ascii
    (rev (trim_start (rev (trim_start (list_ascii_of_string s))))).

(** Regular expressions over code units: the operators the literals of
    [registerUser] are written with. *)
Inductive regex : Type :=
  | Void
  | Eps
  | Chr (c : ascii)
  | Class (p : ascii -> bool)
  | Cat (r1 r2 : regex)
  | Alt (r1 r2 : regex)
  | Star (r : regex).

(** [r+], [r?] and a literal run of characters. *)
Definition Plus (r : regex) : regex := Cat r (Star r).
Definition Opt (r : regex) : regex := Alt r Eps.
Fixpoint Lit (l : list ascii) : regex :=
  match l with
  | [] => Eps
  | c :: l' => Cat (Chr c) (Lit l')
  end.

Fixpoint nullable (r : regex) : bool :=
  match r with
  | Void => false
  | Eps => true
  | Chr _ => false
  | Class _ => false
  | Cat r1 r2 => nullable r1 && nullable r2
  | Alt r1 r2 => nullable r1 || nullable r2
  | Star _ => true
  end.

(** Brzozowski derivative of [r] by the code unit [a]. *)
Fixpoint deriv (a : ascii) (r : regex) : regex :=
  match r with
  | Void => Void
  | Eps => Void
  | Chr c => if Ascii.eqb a c then Eps else Void
  | Class p => if p a then Eps else Void
  | Cat r1 r2 =>
      if nullable r1 then Alt (Cat (deriv a r1) r2) (deriv a r2)
      else Cat (deriv a r1) r2
  | Alt r1 r2 => Alt (deriv a r1) (deriv a r2)
  | Star r1 => Cat (deriv a r1) (Star r1)
  end.

(** Whether the whole of [l] matches [r]. *)
Fixpoint matches (r : regex) (l : list ascii) : bool :=
  match l with
  | [] => nullable r
  | a :: l' => matches (deriv a r) l'
  end.

Fixpoint tails {A} (l : list A) : list (list A) :=
  l :: match l with
       | [] => []
       | _ :: l' => tails l'
       end.

Fixpoint inits {A} (l : list A) : list (list A) :=
  [] :: match l with
        | [] => []
        | a :: l' => map (cons a) (inits l')
        end.

(** A regular expression literal [/^pattern$/], with either anchor
    optional. *)
Record RegExp : Type := mkRegExp {
  anchored_start : bool;
  pattern : regex;
  anchored_end : bool
}.

(** [re.test(s)]: some stretch of [s], starting at the start when
    anchored there and ending at the end when anchored there, matches
    the pattern. *)
Definition RegExp_test (re : RegExp) (s : string) : bool :=
  let l := list_ascii_of_string s in
  existsb
    (fun from_start =>
       existsb (matches (pattern re))
               (if anchored_end re then [from_start] else inits from_start))
    (if anchored_start re then [l] else tails l).

Definition in_range (lo hi c : ascii) : bool :=
  ((N_of_ascii lo <=? N_of_ascii c) && (N_of_ascii c <=? N_of_ascii hi))%N.

(** ** login.js *)

(** POST/PUT/GET through [fetch] with a JSON body; [body] defaults to
    the empty object. *)
Definition sendApiRequest (url method : string) (body : JSValue) : M JSValue :=
  let body := match body with JUndefined => JObj ∅ | _ => body end in
  response <- fetch (mkRequest url method
                       [("Content-Type", "application/json")] (Some body)) ;;
  if negb (ok response) then
    errorData <- response_json response ;;
    message <- lift (get_prop errorData "message") ;;
    text <- lift (to_string (js_or message (JStr "Something went wrong"))) ;;
    throw (ErrorObject "Error" text)
  else
    response_json response.

Definition storeToken (token : JSValue) : M unit :=
  if truthy token then localStorage_setItem "jwtToken" token
  else ret tt.

Definition clearAuthData : M unit :=
  localStorage_removeItem "jwtToken" ;;;
  localStorage_removeItem "apiKey".

(** The class [[a-zA-Z0-9_]] *)
Definition word_char (c : ascii) : bool :=
  in_range "a" "z" c || in_range "A" "Z" c || in_range "0" "9" c || Ascii.eqb c "_".

(** [/^[a-zA-Z0-9_]+$/] *)
Definition nameRegex : RegExp := mkRegExp true (Plus (Class word_char)) true.

(** [/@(stud\.)?noroff\.no$/] *)
Definition emailRegex : RegExp :=
  mkRegExp false
    (Cat (Chr "@")
       (Cat (Opt (Lit (list_ascii_of_string "stud.")))
            (Lit (list_ascii_of_string "noroff.no"))))
    true.

(** [!s] for a string *)
Definition is_empty (s : string) : bool := String.eqb s "".

(** The source lacks the brace that closes [registerUser] after its
    [catch] block; the function is read as ending there. *)
Definition registerUser : M unit :=
  preventDefault ;;;
  name <- element_get "registerName" "value" (fun e => trim (value e)) ;;
  email <- element_get "registerEmail" "value" (fun e => trim (value e)) ;;
  password <- element_get "registerPassword" "value" (fun e => trim (value e)) ;;
  if is_empty name || is_empty email || is_empty password then
    alert "All required fields must be filled in."
  else if negb (RegExp_test nameRegex name) then
    alert "The name must only contain letters, numbers, and underscores."
  else if negb (RegExp_test emailRegex email) then
    alert "Please use a valid Noroff email address."
  else if (String.length password <? 8)%nat then
    alert "Password must be at least 8 characters long."
  else
    try_catch
      (let data := JObj (<["name" := JStr name]>
                        (<["email" := JStr email]>
                        (<["password" := JStr password]> ∅))) in
       responseData <- sendApiRequest "https://v2.api.noroff.dev/auth/register"
                                      "POST" data ;;
       alert "Registration successful! You can now log in." ;;;
       form_reset "registerForm" ;;;
       set_location_href "login.html")
      (fun error =>
         alert ("Registration failed: " ++ thrown_message error)).

Definition loginUser : M unit :=
  preventDefault ;;;
  email <- element_get "loginEmail" "value" (fun e => trim (value e)) ;;
  password <- element_get "loginPassword" "value" (fun e => trim (value e)) ;;
  if is_empty email || is_empty password then
    alert "Please fill in both email and password."
  else
    try_catch
      (responseData <- sendApiRequest "https://v2.api.noroff.dev/auth/login" "POST"
                         (JObj (<["email" := JStr email]>
                               (<["password" := JStr password]> ∅))) ;;
       data <- lift (get_prop responseData "data") ;;
       token <- (if truthy (opt_prop data "accessToken")
                 then ret (opt_prop data "accessToken")
                 else lift (get_prop responseData "accessToken")) ;;
       if negb (truthy token) then
         alert "Login failed: No access token returned."
       else
         storeToken token ;;;
         set_location_href "index.html")
      (fun error =>
         alert ("Login failed: " ++ thrown_message error)).

Definition handleLogout : M unit :=
  clearAuthData ;;;
  set_location_href "login.html".

(** ** post.js *)

(** Modelled from the spec: [getToken] and [getApiKey] of config.js, the
    credential store's read of the stored value or an absent marker,
    under the keys [clearAuthData] erases. *)
Definition getToken : M (option string) := localStorage_getItem "jwtToken".
Definition getApiKey : M (option string) := localStorage_getItem "apiKey".

(** A template literal: the fixed pieces with the interpolated values,
    converted to strings, between them. *)
Fixpoint template (quasis : list string) (exprs : list JSValue) : Result string :=
  match quasis, exprs with
  | q :: qs, e :: es =>
      s ← to_string e;
      rest ← template qs es;
      Val (q ++ s ++ rest)
  | q :: _, [] => Val q
  | [], _ => Val EmptyString
  end.

(** The fixed text of the card template of [displayPosts], between its
    eight interpolations. *)
Definition card_quasis : list string :=
  [ ("
      <div class=" ++ dquote ++ "post-inner" ++ dquote ++ ">
        <div class=" ++ dquote ++ "post-content" ++ dquote ++ ">
          <div class=" ++ dquote ++ "post-image-container mb-3" ++ dquote ++ ">
            <img src=" ++ dquote);
    (dquote ++ " alt=" ++ dquote);
    (dquote ++ "
              class=" ++ dquote ++ "post-image img-fluid rounded" ++ dquote ++ " 
              onerror=" ++ dquote ++ "this.onerror=null;this.src='/assets/default-image.png';" ++ dquote ++ ">
          </div>
          <div class=" ++ dquote ++ "post-meta d-flex justify-content-between text-muted mb-3" ++ dquote ++ ">
            <span><i class=" ++ dquote ++ "fas fa-map-marker-alt" ++ dquote ++ "></i> ");
    ("</span>
            <span><i class=" ++ dquote ++ "fas fa-calendar-alt" ++ dquote ++ "></i> Posted on: ");
    ("</span>
            <span><i class=" ++ dquote ++ "fas fa-heart" ++ dquote ++ "></i> ");
    ("</span>
          </div>
          <div class=" ++ dquote ++ "post-body" ++ dquote ++ ">
            <h4 class=" ++ dquote ++ "post-link" ++ dquote ++ ">");
    ("</h4>
            <p>");
    ("</p>
          </div>
          <div class=" ++ dquote ++ "author-details text-muted" ++ dquote ++ "><p>");
    ("</p></div>
        </div>
      </div>") ].

(** The fixed text of the template of [displaySinglePost]. *)
Definition detail_quasis : list string :=
  [ ("
    <div class=" ++ dquote ++ "post-content" ++ dquote ++ ">
      <div class=" ++ dquote ++ "post-image-container" ++ dquote ++ ">
        <img src=" ++ dquote);
    (dquote ++ " alt=" ++ dquote);
    (dquote ++ " class=" ++ dquote ++ "post-image" ++ dquote ++ " onerror=" ++ dquote ++ "this.onerror=null;this.src='/assets/default-image.png';" ++ dquote ++ ">
      </div>
      <div class=" ++ dquote ++ "post-meta" ++ dquote ++ ">
        <span><i class=" ++ dquote ++ "fas fa-map-marker-alt" ++ dquote ++ "></i> ");
    ("</span>
        <span><i class=" ++ dquote ++ "fas fa-calendar-alt" ++ dquote ++ "></i> ");
    ("</span>
        <span><i class=" ++ dquote ++ "fas fa-heart" ++ dquote ++ "></i> ");
    ("</span>
      </div>
      <div class=" ++ dquote ++ "post-body" ++ dquote ++ ">
        <h2>");
    ("</h2>
        <p>");
    ("</p>
      </div>
      <div class=" ++ dquote ++ "author-details" ++ dquote ++ "><p>Author: ");
    ("</p></div>
    </div>") ].

(** [new Date(v).toLocaleDateString()]: the Date constructor converts an
    object to a primitive first, which fails as ToString does; the
    text is the locale's. *)
Definition locale_date (localeDate : JSValue -> string) (v : JSValue)
  : Result JSValue :=
  _ ← to_string v;
  Val (JStr (localeDate v)).

(** The values [displayPosts] interpolates into the card of one post, in
    the order of the template: image URL, alt text, location, date,
    reaction count, title, body, author. *)
Definition card_exprs (localeDate : JSValue -> string) (post : JSValue)
  : Result (list JSValue) :=
  tags ← get_prop post "tags";
  let location := js_or (opt_index tags 1) (JStr "Unknown") in
  _count ← get_prop post "_count";
  let reactionsCount := js_or (opt_prop _count "reactions") (JNum 0) in
  author_ ← get_prop post "author";
  let author := js_or (opt_prop author_ "name") (JStr "Anonymous") in
  media ← get_prop post "media";
  let imageUrl := js_or (opt_prop media "url") (JStr "/assets/default-image.png") in
  created ← get_prop post "created";
  postDate ← locale_date localeDate created;
  media' ← get_prop post "media";
  title ← get_prop post "title";
  body_ ← get_prop post "body";
  Val [ imageUrl;
           js_or (opt_prop media' "alt") (JStr "Post Image");
           location;
           postDate;
           reactionsCount;
           js_or title (JStr "Untitled Post");
           js_or body_ (JStr "No content");
           author ].

(** The element [displayPosts] creates for one post. *)
Definition post_card (localeDate : JSValue -> string) (post : JSValue)
  : Result PostCard :=
  exprs ← card_exprs localeDate post;
  html ← template card_quasis exprs;
  Val (mkPostCard ["post"; "mb-4"; "p-3"; "border"; "rounded"] html
            (opt_prop post "id")).

(** [posts.forEach(f)] *)
Definition forEach (posts : JSValue) (f : JSValue -> M unit) : M unit :=
  match posts with
  | JArr l => fold_right (fun post rest => f post ;;; rest) (ret tt) l
  | JUndefined => throw (read_of_nullish "undefined" "forEach")
  | JNull => throw (read_of_nullish "null" "forEach")
  | _ => throw (ErrorObject "TypeError" "posts.forEach is not a function")
  end.

(** The callback [displayPosts] hands to [forEach]. *)
Definition displayPosts_each (post : JSValue) : M unit :=
  postElement <- (fun w => lift (post_card (toLocaleDateString w) post) w) ;;
  appendChild "postsContainer" postElement.

Definition displayPosts (posts : JSValue) (page : Z) : M unit :=
  postsContainer <- getElementById "postsContainer" ;;
  match postsContainer with
  | None => ret tt
  | Some _ =>
      (if page =? 1 then set_innerHTML "postsContainer" "" else ret tt) ;;;
      forEach posts displayPosts_each
  end.

(** The values [displaySinglePost] interpolates, in the order of its
    template. *)
Definition detail_exprs (localeDate : JSValue -> string) (post : JSValue)
  : Result (list JSValue) :=
  media ← get_prop post "media";
  media' ← get_prop post "media";
  tags ← get_prop post "tags";
  created ← get_prop post "created";
  date ← locale_date localeDate created;
  _count ← get_prop post "_count";
  title ← get_prop post "title";
  body_ ← get_prop post "body";
  author ← get_prop post "author";
  Val [ js_or (opt_prop media "url") (JStr "/assets/default-image.png");
           js_or (opt_prop media' "alt") (JStr "Post Image");
           js_or (opt_index tags 1) (JStr "Unknown");
           date;
           js_or (opt_prop _count "reactions") (JNum 0);
           js_or title (JStr "Untitled Post");
           js_or body_ (JStr "No content");
           js_or (opt_prop author "name") (JStr "Anonymous") ].

Definition displaySinglePost (post : JSValue) : M unit :=
  postDetails <- getElementById "postDetails" ;;
  match postDetails with
  | None => console_error "Post details container not found!"
  | Some _ =>
      author <- lift (get_prop post "author") ;;
      name <- lift (to_string (js_or (opt_prop author "name") (JStr "Anonymous"))) ;;
      set_document_title (name ++ "'s Post") ;;;
      html <- (fun w => lift (exprs ← detail_exprs (toLocaleDateString w) post;
                              template detail_quasis exprs) w) ;;
      set_innerHTML "postDetails" html
  end.

(** The headers of an authenticated call. *)
Definition auth_headers (token apiKey : option string) : list (string * string) :=
  [("Authorization", "Bearer " ++ item_to_string token);
   ("x-Noroff-api-key", item_to_string apiKey)].

(** [fetchPosts(page = 1)]: [None] is the call without argument. *)
Definition fetchPosts (page : option Z) : M unit :=
  let page := default 1 page in
  token <- getToken ;;
  apiKey <- getApiKey ;;
  postsContainer <- getElementById "postsContainer" ;;
  if item_missing token || item_missing apiKey || negb (bool_decide (is_Some postsContainer))
  then ret tt
  else
    try_catch
      (response <- fetch (mkRequest
           ("https://v2.api.noroff.dev/social/posts?limit=12&page=" ++ pretty page
              ++ "&_tag=petal-parlour&_author=true")
           "GET" (auth_headers token apiKey) None) ;;
       data <- (if ok response then response_json response
                else throw (RejectedResponse response)) ;;
       posts <- lift (get_prop data "data") ;;
       displayPosts posts page ;;;
       meta <- lift (get_prop data "meta") ;;
       isLastPage <- lift (get_prop meta "isLastPage") ;;
       if truthy isLastPage
       then element_set "loadMoreBtn" "disabled" (with_disabled true)
       else ret tt)
      (fun error => alert ("Error fetching posts: " ++ thrown_to_string error)).

(** Modelled from the spec: the globals [PostManager] and [PostRenderer],
    defined outside post.js, through which the module triggers its list
    refresh and its detail renderer. *)
Definition PostManager_fetchPosts : M unit := fetchPosts None.
Definition PostRenderer_displaySinglePost : JSValue -> M unit := displaySinglePost.

Definition resetForm : M unit :=
  form_reset "addPostForm" ;;;
  element_set "postId" "value" (with_value "") ;;;
  element_set "submitButton" "textContent" (with_textContent "Submit") ;;;
  removeEventListener "addPostForm" L_updatePost ;;;
  addEventListener "addPostForm" L_createPost.

(** [a || b] on strings *)
Definition str_or (a b : string) : string := if is_empty a then b else a.

Definition createPost : M unit :=
  preventDefault ;;;
  token <- getToken ;;
  apiKey <- getApiKey ;;
  if item_missing token || item_missing apiKey then
    alert "You must be logged in to create a post."
  else
    title <- element_get "title" "value" (fun e => str_or (value e) "Untitled Post") ;;
    imageUrl <- element_get "image" "value"
                  (fun e => str_or (value e) "/assets/default-post.png") ;;
    location <- element_get "location" "value" (fun e => str_or (value e) "Unknown") ;;
    text <- element_get "text" "value" (fun e => str_or (value e) "No content") ;;
    postDate <- (fun w => (Normal (clock_iso w), w)) ;;
    let newPostData :=
      JObj (<["title" := JStr title]>
           (<["body" := JStr text]>
           (<["tags" := JArr [JStr "petal-parlour"; JStr location]]>
           (<["media" := JObj (<["url" := JStr imageUrl]> (<["alt" := JStr title]> ∅))]>
           (<["created" := JStr postDate]> ∅))))) in
    try_catch
      (response <- fetch (mkRequest "https://v2.api.noroff.dev/social/posts" "POST"
                            (auth_headers token apiKey
                               ++ [("Content-Type", "application/json")])
                            (Some newPostData)) ;;
       (if negb (ok response) then
          data <- response_json response ;;
          message <- lift (get_prop data "message") ;;
          text <- lift (to_string (js_or message (JStr "Error creating post."))) ;;
          throw (ErrorObject "Error" text)
        else response_json response) ;;;
       alert "Post created successfully!" ;;;
       resetForm ;;;
       PostManager_fetchPosts)
      (fun error => alert ("Post creation failed: " ++ thrown_message error)).

Definition updatePost : M unit :=
  preventDefault ;;;
  token <- getToken ;;
  apiKey <- getApiKey ;;
  postId <- element_get "postId" "value" value ;;
  if item_missing token || item_missing apiKey || is_empty postId then
    alert "You must be logged in, have an API key, and a valid post to update."
  else
    image <- element_get "image" "value" value ;;
    location <- element_get "location" "value" value ;;
    text <- element_get "text" "value" value ;;
    title <- element_get "title" "value" (fun e => str_or (value e) "Untitled Post") ;;
    let updatedPostData :=
      JObj (<["title" := JStr title]>
           (<["body" := JStr (str_or text "No content provided.")]>
           (<["tags" := JArr [JStr "petal-parlour"; JStr (str_or location "Unknown")]]>
           (<["media" := JObj (<["url" := JStr (str_or image "/assets/default-post.png")]>
                              (<["alt" := JStr title]> ∅))]> ∅)))) in
    try_catch
      (response <- fetch (mkRequest ("https://v2.api.noroff.dev/social/posts/" ++ postId)
                            "PUT"
                            (auth_headers token apiKey
                               ++ [("Content-Type", "application/json")])
                            (Some updatedPostData)) ;;
       (if negb (ok response) then
          data <- response_json response ;;
          message <- lift (get_prop data "message") ;;
          text <- lift (to_string (js_or message (JStr "Error updating post."))) ;;
          throw (ErrorObject "Error" text)
        else response_json response) ;;;
       alert "Post updated successfully!" ;;;
       resetForm ;;;
       PostManager_fetchPosts)
      (fun error => alert ("Post update failed: " ++ thrown_message error)).

Definition deletePost (postId : string) : M unit :=
  token <- getToken ;;
  apiKey <- getApiKey ;;
  try_catch
    (response <- fetch (mkRequest ("https://v2.api.noroff.dev/social/posts/" ++ postId)
                          "DELETE" (auth_headers token apiKey) None) ;;
     if status response =? 204 then
       alert "Post deleted successfully!" ;;;
       PostManager_fetchPosts
     else throw (ErrorObject "Error" "Failed to delete post"))
    (fun error => alert ("Error deleting post: " ++ thrown_message error)).

Definition editPost (postId title imageUrl body_ location postDate : string) : M unit :=
  titleInput <- getElementById "title" ;;
  imageInput <- getElementById "image" ;;
  locationInput <- getElementById "location" ;;
  textInput <- getElementById "text" ;;
  postIdInput <- getElementById "postId" ;;
  match titleInput, imageInput, locationInput, textInput, postIdInput with
  | Some _, Some _, Some _, Some _, Some _ =>
      element_set "title" "value" (with_value title) ;;;
      element_set "image" "value" (with_value (str_or imageUrl EmptyString)) ;;;
      element_set "location" "value" (with_value (str_or location "Unknown")) ;;;
      element_set "text" "value" (with_value (str_or body_ "No content")) ;;;
      element_set "postId" "value" (with_value postId) ;;;
      submitButton <- getElementById "submitButton" ;;
      (match submitButton with
       | Some _ => element_set "submitButton" "textContent" (with_textContent "Resubmit")
       | None => ret tt
       end) ;;;
      form <- getElementById "addPostForm" ;;
      (match form with
       | Some _ =>
           removeEventListener "addPostForm" L_createPost ;;;
           addEventListener "addPostForm" L_updatePost
       | None => ret tt
       end)
  | _, _, _, _, _ => console_error "One or more form fields are missing."
  end.

Definition fetchSinglePost (postId : string) : M unit :=
  token <- getToken ;;
  apiKey <- getApiKey ;;
  if item_missing token || item_missing apiKey then ret tt
  else
    try_catch
      (response <- fetch (mkRequest
           ("https://v2.api.noroff.dev/social/posts/" ++ postId
              ++ "?_author=true&_comments=true")
           "GET" (auth_headers token apiKey) None) ;;
       postData <- (if negb (ok response) then
                      console_error "Failed to fetch post:" ;;;
                      throw (RejectedResponse response)
                    else response_json response) ;;
       post <- lift (get_prop postData "data") ;;
       PostRenderer_displaySinglePost post)
      (fun error =>
         alert ("Error fetching post details: " ++ thrown_message error) ;;;
         console_error "Error fetching post details:").

Definition updateCharCount : M unit :=
  let maxLength := 280 in
  currentLength <- element_get "text" "value" (fun e => String.length (value e)) ;;
  element_set "charCount" "textContent"
    (with_textContent (pretty currentLength ++ "/" ++ pretty maxLength ++ " characters used")).

(** ** The properties, in the words of the specification *)

(** The strings a regular expression denotes. *)
Inductive lang : regex → list ascii → Prop :=
  | lang_Eps : lang Eps []
  | lang_Chr c : lang (Chr c) [c]
  | lang_Class p c : p c = true → lang (Class p) [c]
  | lang_Cat r1 r2 s1 s2 : lang r1 s1 → lang r2 s2 → lang (Cat r1 r2) (s1 ++ s2)%list
  | lang_Alt_l r1 r2 s : lang r1 s → lang (Alt r1 r2) s
  | lang_Alt_r r1 r2 s : lang r2 s → lang (Alt r1 r2) s
  | lang_Star_nil r : lang (Star r) []
  | lang_Star_app r s1 s2 : lang r s1 → lang (Star r) s2 → lang (Star r) (s1 ++ s2)%list.

(** [s] ends in [suffix]. *)
Definition ends_with (suffix s : string) : bool :=
  bool_decide (list_ascii_of_string suffix `suffix_of` list_ascii_of_string s).

(** Registration's validation as the specification words it: the checks
    in order, the first failure deciding the message. *)
Definition validation_failure (name email password : string) : option string :=
  if is_empty name || is_empty email || is_empty password then
    Some "All required fields must be filled in."
  else if negb (forallb word_char (list_ascii_of_string name)) then
    Some "The name must only contain letters, numbers, and underscores."
  else if negb (ends_with "@noroff.no" email || ends_with "@stud.noroff.no" email) then
    Some "Please use a valid Noroff email address."
  else if (String.length password <? 8)%nat then
    Some "Password must be at least 8 characters long."
  else None.

(** A login response body without access token, at the top level or
    under [data]. *)
Definition no_access_token (v : JSValue) : Prop :=
  opt_prop (opt_prop v "data") "accessToken" = JUndefined ∧
  opt_prop v "accessToken" = JUndefined.

Definition response_without_token (r : Response) : Prop :=
  match json_body r with
  | Unparsable _ => True
  | Parsed v => no_access_token v
  end.

(** [w'] differs from [w] in the document at most. *)
Definition same_outside_document (w w' : World) : Prop :=
  localStorage w' = localStorage w ∧
  document_title w' = document_title w ∧
  location_href w' = location_href w ∧
  alerts w' = alerts w ∧
  console_errors w' = console_errors w ∧
  requests w' = requests w ∧
  network w' = network w ∧
  clock_iso w' = clock_iso w ∧
  toLocaleDateString w' = toLocaleDateString w.

(** The cards of a sequence of posts, up to the first post whose
    properties cannot be read. *)
Fixpoint rendered_cards (localeDate : JSValue → string) (posts : list JSValue)
  : list PostCard :=
  match posts with
  | [] => []
  | post :: posts' =>
      match post_card localeDate post with
      | Val c => c :: rendered_cards localeDate posts'
      | Err _ => []
      end
  end.

(** How rendering a sequence of posts ends. *)
Fixpoint render_outcome (localeDate : JSValue → string) (posts : list JSValue)
  : Completion unit :=
  match posts with
  | [] => Normal tt
  | post :: posts' =>
      match post_card localeDate post with
      | Val _ => render_outcome localeDate posts'
      | Err e => Throw e
      end
  end.

Definition is_array (v : JSValue) : bool :=
  match v with
  | JArr _ => true
  | _ => false
  end.

(** The tag that scopes the application's feed. *)
Definition feed_tag : string := "petal-parlour".

(** Rebinding a form's submit action from one listener to another. *)
Definition rebind (from to : Listener) (ls : list Listener) : list Listener :=
  let ls' := filter (fun x => x ≠ from) ls in
  if bool_decide (to ∈ ls') then ls' else ls' ++ [to].

(** The feed query for a page, and the requests that are one. *)
Definition feed_query (page : Z) : string :=
  "https://v2.api.noroff.dev/social/posts?limit=12&page=" ++ pretty page
    ++ "&_tag=" ++ feed_tag ++ "&_author=true".

Definition is_feed_query (r : Request) : Prop :=
  body r = None ∧ ∃ page, url r = feed_query page.

(** The first element of the [tags] array of a request body, and the
    requests whose body, if they have one, carries the feed tag there. *)
Definition first_tag (b : JSValue) : JSValue := opt_index (opt_prop b "tags") 0.

Definition carries_feed_tag (r : Request) : Prop :=
  ∀ b, body r = Some b → first_tag b = JStr feed_tag.

(** Whether both credentials are stored (and not empty). *)
Definition has_credentials (w : World) : bool :=
  negb (item_missing (localStorage w !! "jwtToken"))
  && negb (item_missing (localStorage w !! "apiKey")).

(** The Post record of the data model. Every field but the id is
    optional; [tags] holds the location label at index 1. *)
Record Media : Type := mkMedia {
  media_url : option string;
  media_alt : option string
}.

Record Post : Type := mkPost {
  post_id : Z;
  post_title : option string;
  post_text : option string;
  post_media : option Media;
  post_tags : option (list string);
  post_author_name : option (option string);   (* [author], and its [name] *)
  post_created : option string;
  post_reaction_count : option (option Z)      (* [_count], and its [reactions] *)
}.

(** A field that is there, as a property of a JSON object. *)
Definition field (key : string) (v : option JSValue) (m : gmap string JSValue)
  : gmap string JSValue :=
  match v with
  | Some x => <[key := x]> m
  | None => m
  end.

(** The JSON object the API sends for a Post. *)
Definition post_json (p : Post) : JSValue :=
  JObj
    (field "id" (Some (JNum (post_id p)))
    (field "title" (JStr <$> post_title p)
    (field "body" (JStr <$> post_text p)
    (field "media"
       ((fun m => JObj (field "url" (JStr <$> media_url m)
                       (field "alt" (JStr <$> media_alt m) ∅))) <$> post_media p)
    (field "tags" ((fun ts => JArr (JStr <$> ts)) <$> post_tags p)
    (field "author"
       ((fun n => JObj (field "name" (JStr <$> n) ∅)) <$> post_author_name p)
    (field "created" (JStr <$> post_created p)
    (field "_count"
       ((fun c => JObj (field "reactions" (JNum <$> c) ∅)) <$> post_reaction_count p)
       ∅)))))))).

(** The optional fields of a Post the renderers show with a default. *)
Definition image_of (p : Post) : option string := post_media p ≫= media_url.
Definition author_of (p : Post) : option string := mjoin (post_author_name p).
Definition location_of (p : Post) : option string := post_tags p ≫= (fun ts => ts !! 1%nat).
Definition reactions_of (p : Post) : option Z := mjoin (post_reaction_count p).

(** What a renderer shows for an optional field: its value, or the
    default when it is missing (or empty). *)
Definition shown (d : string) (o : option string) : string :=
  match o with
  | Some s => if is_empty s then d else s
  | None => d
  end.

Definition shown_count (o : option Z) : Z :=
  match o with
  | Some n => n
  | None => 0
  end.

(** The eight values shown for a Post, in the order of the templates. *)
Definition shown_values (localeDate : JSValue → string) (p : Post) : list JSValue :=
  [ JStr (shown "/assets/default-image.png" (image_of p));
    JStr (shown "Post Image" (post_media p ≫= media_alt));
    JStr (shown "Unknown" (location_of p));
    JStr (localeDate (from_option JStr JUndefined (post_created p)));
    JNum (shown_count (reactions_of p));
    JStr (shown "Untitled Post" (post_title p));
    JStr (shown "No content" (post_text p));
    JStr (shown "Anonymous" (author_of p)) ].

(** ** Further notions used to state what the scripts do *)

(** The request [sendApiRequest] hands to [fetch]. *)
Definition api_request (url method : string) (body : JSValue) : Request :=
  mkRequest url method [("Content-Type", "application/json")] (Some body).

(** The request [registerUser] sends for a new account. *)
Definition register_request (name email password : string) : Request :=
  api_request "https://v2.api.noroff.dev/auth/register" "POST"
    (JObj (<["name" := JStr name]>
          (<["email" := JStr email]>
          (<["password" := JStr password]> ∅)))).

(** The request [fetchPosts] sends for a page of the feed. *)
Definition feed_request (page : Z) (w : World) : Request :=
  mkRequest (feed_query page) "GET"
    (auth_headers (localStorage w !! "jwtToken") (localStorage w !! "apiKey")) None.

(** [fetchPosts] goes on when both credentials are stored and the page
    has the container of the feed. *)
Definition feed_ready (w : World) : bool :=
  has_credentials w && bool_decide (is_Some (document w !! "postsContainer")).

Section PostNotions.
Local Open Scope list_scope.

(** A field that holds a non-empty string. *)
Definition filled (v : JSValue) : Prop := ∃ s, v = JStr s ∧ s ≠ EmptyString.

(** A request whose post has a title, a text, a location and an image,
    the image described by the title. *)
Definition complete_post (r : Request) : Prop :=
  ∀ b, body r = Some b →
    filled (opt_prop b "title") ∧
    filled (opt_prop b "body") ∧
    filled (opt_index (opt_prop b "tags") 1) ∧
    filled (opt_prop (opt_prop b "media") "url") ∧
    opt_prop (opt_prop b "media") "alt" = opt_prop b "title".

(** The request [updatePost] sends for a post, from what its form holds. *)
Definition update_request (w : World) (postId title image location text : string)
  : Request :=
  mkRequest ("https://v2.api.noroff.dev/social/posts/" ++ postId) "PUT"
    (auth_headers (localStorage w !! "jwtToken") (localStorage w !! "apiKey")
       ++ [("Content-Type", "application/json")])
    (Some (JObj (<["title" := JStr (str_or title "Untitled Post")]>
                (<["body" := JStr (str_or text "No content provided.")]>
                (<["tags" := JArr [JStr feed_tag; JStr (str_or location "Unknown")]]>
                (<["media" := JObj (<["url" := JStr (str_or image "/assets/default-post.png")]>
                                   (<["alt" := JStr (str_or title "Untitled Post")]> ∅))]>
                 ∅)))))).

(** The request [deletePost] sends for a post. *)
Definition delete_request (w : World) (postId : string) : Request :=
  mkRequest ("https://v2.api.noroff.dev/social/posts/" ++ postId) "DELETE"
    (auth_headers (localStorage w !! "jwtToken") (localStorage w !! "apiKey")) None.

(** The ids [editPost] and [resetForm] write to. *)
Definition form_ids : list string :=
  ["title"; "image"; "location"; "text"; "postId"; "submitButton"; "addPostForm"].

(** The request [createPost] sends, from what its form holds. *)
Definition create_request (w : World) (title image location text : string) : Request :=
  mkRequest "https://v2.api.noroff.dev/social/posts" "POST"
    (auth_headers (localStorage w !! "jwtToken") (localStorage w !! "apiKey")
       ++ [("Content-Type", "application/json")])
    (Some (JObj (<["title" := JStr (str_or title "Untitled Post")]>
                (<["body" := JStr (str_or text "No content")]>
                (<["tags" := JArr [JStr feed_tag; JStr (str_or location "Unknown")]]>
                (<["media" := JObj (<["url" := JStr (str_or image "/assets/default-post.png")]>
                                   (<["alt" := JStr (str_or title "Untitled Post")]> ∅))]>
                (<["created" := JStr (clock_iso w)]> ∅))))))).

(** The request [fetchSinglePost] sends for a post. *)
Definition single_request (w : World) (postId : string) : Request :=
  mkRequest ("https://v2.api.noroff.dev/social/posts/" ++ postId
               ++ "?_author=true&_comments=true")
    "GET" (auth_headers (localStorage w !! "jwtToken") (localStorage w !! "apiKey")) None.

(** The page after [fetchSinglePost] reported a failure. *)
Definition fetch_failed (w : World) (logged : list string) (message : string) : World :=
  with_console_errors (console_errors w ++ logged)
    (with_alerts (alerts w ++ [("Error fetching post details: " ++ message)%string]) w).

End PostNotions.

(** ** Sample pages *)

(** A page with no element, empty storage and a silent network. *)
Definition blank_world : World :=
  mkWorld ∅ ∅ EmptyString "index.html" [] [] [] []
          "2024-09-29T10:00:00.000Z" (fun _ => "9/29/2024").

(** A text input holding [s]. *)
Definition input (s : string) (owner : string) : Element :=
  mkElement s EmptyString (Some owner) EmptyString false [] [].

(** An element with content and submit listeners. *)
Definition panel (ns : list Node) (ls : list Listener) : Element :=
  mkElement EmptyString EmptyString None EmptyString false ns ls.

Definition logged_in : gmap string string :=
  <["jwtToken" := "eyJhbGciOi"]> (<["apiKey" := "k-123"]> ∅).

(** Responses of the API used in the examples. *)
Definition bad_gateway_page : Response :=
  mkResponse 502 (Unparsable "Unexpected token < in JSON at position 0").

Definition conflict : Response :=
  mkResponse 400 (Parsed (JObj (<["message" := JStr "Profile already exists"]> ∅))).

Definition conflict_arrives : World := with_network [Responded conflict] blank_world.

Definition bad_gateway_arrives : World :=
  with_network [Responded bad_gateway_page] blank_world.

Definition registration_page (name email password : string) : World :=
  with_document
    (<["registerForm" := (panel [] [])]>
    (<["registerName" := input name "registerForm"]>
    (<["registerEmail" := input email "registerForm"]>
    (<["registerPassword" := input password "registerForm"]> ∅))))
    blank_world.

Definition login_page (email password : string) : World :=
  with_document
    (<["loginForm" := (panel [] [])]>
    (<["loginEmail" := input email "loginForm"]>
    (<["loginPassword" := input password "loginForm"]> ∅)))
    (with_storage (<["apiKey" := "k-123"]> ∅) blank_world).

Definition created : Response :=
  mkResponse 201 (Parsed (JObj (<["data" := JObj (<["name" := JStr "bob"]> ∅)]> ∅))).

Definition untrimmed_registration : World :=
  with_network [Responded created]
    (registration_page " bob" "bob@stud.noroff.no" "12345678").

Definition bad_name_registration : World :=
  registration_page "bad name!" "bob@noroff.no" "12345678".

Definition token_less : Response :=
  mkResponse 200 (Parsed (JObj (<["data" := JObj (<["name" := JStr "bob"]> ∅)]> ∅))).

Definition token_less_login : World :=
  with_network [Responded token_less] (login_page "bob@noroff.no" "12345678").

Definition button (is_disabled : bool) : Element :=
  mkElement EmptyString EmptyString None "Load more" is_disabled [] [].

(** The feed: a container with some content and the load-more control. *)
Definition feed_page (prior : list Node) (load_more_disabled : bool) : World :=
  with_document
    (<["postsContainer" := panel prior []]>
    (<["loadMoreBtn" := button load_more_disabled]> ∅))
    (with_storage logged_in blank_world).

(** The post form, with its fields, over the feed. *)
Definition editor_page (postId : string) (ls : list Listener) : World :=
  with_document
    (<["addPostForm" := panel [] ls]>
    (<["title" := input "Peonies" "addPostForm"]>
    (<["image" := input EmptyString "addPostForm"]>
    (<["location" := input "Oslo" "addPostForm"]>
    (<["text" := input "In bloom" "addPostForm"]>
    (<["postId" := input postId "addPostForm"]>
    (<["submitButton" := button false]>
    (<["postsContainer" := panel [] []]>
    (<["loadMoreBtn" := button false]> ∅)))))))))
    (with_storage logged_in blank_world).

(** A post with an id and nothing else, and one with every field. *)
Definition bare_post : Post := mkPost 7 None None None None None None None.

Definition full_post : Post :=
  mkPost 8 (Some "Peonies") (Some "In bloom")
         (Some (mkMedia (Some "https://img.example/peony.png") (Some "A peony")))
         (Some ["petal-parlour"; "Oslo"]) (Some (Some "kristine"))
         (Some "2024-09-29T10:00:00.000Z") (Some (Some 3)).

Definition feed_data (posts : list JSValue) (isLastPage : bool) : JSValue :=
  JObj (<["data" := JArr posts]>
       (<["meta" := JObj (<["isLastPage" := JBool isLastPage]> ∅)]> ∅)).

Definition feed_response (posts : list JSValue) (isLastPage : bool) : Response :=
  mkResponse 200 (Parsed (feed_data posts isLastPage)).

Definition updated : Response :=
  mkResponse 200 (Parsed (JObj (<["data" := post_json full_post]> ∅))).

Definition last_page_arrives : World :=
  with_network [Responded (feed_response [post_json bare_post] true)] (feed_page [] false).

(** The last page arrives, then the first page is fetched again. *)
Definition two_cycles : World :=
  with_network [Responded (feed_response [post_json full_post] true);
                Responded (feed_response [post_json bare_post] false)]
    (feed_page [] false).

Definition second_page : World := feed_page [Markup "<p>earlier</p>"] false.

Definition edit_succeeds : World :=
  with_network [Responded updated; Responded (feed_response [post_json bare_post] false)]
    (editor_page "7" [L_updatePost]).

Definition edit_fails : World :=
  with_network [Responded conflict] (editor_page "7" [L_updatePost]).

Definition logged_out : World := with_storage ∅ (editor_page "7" [L_updatePost]).

Definition new_post_form : World := editor_page EmptyString [L_createPost].

(** ** Further sample pages *)

Definition valid_registration : World :=
  with_network [Responded created]
    (registration_page "bob" "bob@stud.noroff.no" "12345678").

(** The server accepts a new post, then answers the refresh of the feed. *)
Definition post_accepted : World :=
  with_network [Responded created; Responded (feed_response [post_json bare_post] false)]
    new_post_form.

Definition buttonless_form : World :=
  with_document (delete "submitButton" (document post_accepted)) post_accepted.

(** The page of a single post. *)
Definition detail_page : World :=
  with_document (<["postDetails" := panel [] []]> ∅) (with_storage logged_in blank_world).

Definition post_arrives : World := with_network [Responded updated] detail_page.

(** ** Proof machinery *)

(** Symbolic execution of a script on a world: unfold the monad and the
    browser primitives, then reduce the fields of the worlds built. *)
Ltac exec :=
  cbv beta iota zeta delta
      [bind ret throw lift try_catch preventDefault element_get element_set alert
       console_error fetch response_json update_world_document update_world_storage
       set_location_href set_document_title localStorage_getItem localStorage_setItem
       localStorage_removeItem getElementById getToken getApiKey mbind mret
       Result_bind Result_ret
       with_storage with_document with_title with_href with_alerts
       with_console_errors with_requests with_network] in *;
  cbn [localStorage document document_title location_href alerts console_errors
       requests network clock_iso toLocaleDateString fst snd negb andb orb] in *.

(** Case analysis on the innermost value the script branches on. *)
Ltac branch :=
  match goal with
  | |- context [match ?m !! ?k with _ => _ end] => destruct (m !! k) eqn:?
  | |- context [match ?x with _ => _ end] =>
      lazymatch x with
      | context [match _ with _ => _ end] => fail
      | _ => destruct x eqn:?
      end
  end.

Ltac run := repeat (exec; try done; branch); exec; try done.

(** ** Regular expressions: the matcher decides the language *)

Section Matcher.
Local Open Scope list_scope.
Implicit Types (r : regex) (s : list ascii) (a : ascii).

Lemma lang_Cat_inv r1 r2 s :
  lang (Cat r1 r2) s → ∃ s1 s2, s = s1 ++ s2 ∧ lang r1 s1 ∧ lang r2 s2.
Proof. inversion 1; subst; eauto. Qed.

Lemma lang_Alt_inv r1 r2 s : lang (Alt r1 r2) s → lang r1 s ∨ lang r2 s.
Proof. inversion 1; subst; eauto. Qed.

Lemma lang_Chr_inv c s : lang (Chr c) s → s = [c].
Proof. by inversion 1. Qed.

Lemma lang_Class_inv p s : lang (Class p) s → ∃ c, s = [c] ∧ p c = true.
Proof. inversion 1; subst; eauto. Qed.

Lemma lang_Eps_inv s : lang Eps s → s = [].
Proof. by inversion 1. Qed.

Lemma lang_Void_inv s : ¬ lang Void s.
Proof. inversion 1. Qed.

Lemma lang_Cat_cons r1 r2 a s1 s2 :
  lang r1 (a :: s1) → lang r2 s2 → lang (Cat r1 r2) (a :: s1 ++ s2).
Proof. intros H1 H2. apply (lang_Cat _ _ (a :: s1) s2 H1 H2). Qed.

Lemma nullable_spec r : nullable r = true ↔ lang r [].
Proof.
  induction r; simpl; split; intros H; try discriminate; try (by constructor);
    try (by inversion H).
  - apply andb_true_iff in H as [H1 H2].
    apply (lang_Cat _ _ [] []); tauto.
  - apply lang_Cat_inv in H as (s1 & s2 & Heq & H1 & H2).
    symmetry in Heq. apply app_eq_nil in Heq as [-> ->]. apply andb_true_iff; tauto.
  - apply orb_true_iff in H as [H|H]; [apply lang_Alt_l|apply lang_Alt_r]; tauto.
  - apply orb_true_iff. apply lang_Alt_inv in H. tauto.
Qed.

Lemma lang_Star_cons r a s :
  lang (Star r) (a :: s) →
  ∃ s1 s2, s = s1 ++ s2 ∧ lang r (a :: s1) ∧ lang (Star r) s2.
Proof.
  intros H. remember (Star r) as r' eqn:Hr. remember (a :: s) as s' eqn:Hs.
  revert s Hs. induction H as [| | | | | | |r0 s1 s2 H1 _ H2 IH2];
    intros t Ht; try discriminate.
  injection Hr as ->.
  destruct s1 as [|b s1]; simpl in Ht.
  - apply IH2; auto.
  - injection Ht as -> <-. eauto.
Qed.

Lemma deriv_spec a r s : lang (deriv a r) s ↔ lang r (a :: s).
Proof.
  revert s. induction r; intros s; simpl.
  - split; intros H; inversion H.
  - split; intros H; inversion H.
  - destruct (Ascii.eqb_spec a c) as [->|Hne]; split; intros H.
    + apply lang_Eps_inv in H as ->. constructor.
    + apply lang_Chr_inv in H. injection H as ->. constructor.
    + by apply lang_Void_inv in H.
    + apply lang_Chr_inv in H. congruence.
  - destruct (p a) eqn:Hp; split; intros H.
    + apply lang_Eps_inv in H as ->. by constructor.
    + apply lang_Class_inv in H as (c & [= -> ->] & _). constructor.
    + by apply lang_Void_inv in H.
    + apply lang_Class_inv in H as (c & [= -> ->] & ?). congruence.
  - destruct (nullable r1) eqn:Hn.
    + split; intros H.
      * apply lang_Alt_inv in H as [H|H].
        -- apply lang_Cat_inv in H as (s1 & s2 & -> & H1 & H2).
           apply lang_Cat_cons; [by apply IHr1|done].
        -- apply (lang_Cat _ _ [] (a :: s)); [by apply nullable_spec|by apply IHr2].
      * apply lang_Cat_inv in H as (s1 & s2 & Heq & H1 & H2).
        destruct s1 as [|b s1]; simpl in Heq.
        -- subst. apply lang_Alt_r. by apply IHr2.
        -- injection Heq as -> ->. apply lang_Alt_l. constructor; [by apply IHr1|done].
    + split; intros H.
      * apply lang_Cat_inv in H as (s1 & s2 & -> & H1 & H2).
        apply lang_Cat_cons; [by apply IHr1|done].
      * apply lang_Cat_inv in H as (s1 & s2 & Heq & H1 & H2).
        destruct s1 as [|b s1]; simpl in Heq.
        -- apply nullable_spec in H1. congruence.
        -- injection Heq as -> ->. constructor; [by apply IHr1|done].
  - split; intros H; apply lang_Alt_inv in H as [H|H];
      (apply lang_Alt_l, IHr1, H) || (apply lang_Alt_r, IHr2, H).
  - split; intros H.
    + apply lang_Cat_inv in H as (s1 & s2 & -> & H1 & H2).
      apply (lang_Star_app _ (a :: s1) s2); [by apply IHr|done].
    + apply lang_Star_cons in H as (s1 & s2 & -> & H1 & H2).
      constructor; [by apply IHr|done].
Qed.

Lemma matches_spec r s : matches r s = true ↔ lang r s.
Proof.
  revert r. induction s as [|a s IH]; intros r; simpl.
  - apply nullable_spec.
  - rewrite IH. apply deriv_spec.
Qed.

Lemma lang_Lit l s : lang (Lit l) s ↔ s = l.
Proof.
  revert s. induction l as [|c l IH]; intros s; simpl.
  - split; [apply lang_Eps_inv|intros ->; constructor].
  - split.
    + intros H. apply lang_Cat_inv in H as (s1 & s2 & -> & H1 & H2).
      apply lang_Chr_inv in H1 as ->. apply IH in H2 as ->. done.
    + intros ->. apply (lang_Cat _ _ [c] l); [constructor|by apply IH].
Qed.

Lemma lang_Star_Class p s :
  lang (Star (Class p)) s ↔ Forall (λ c, p c = true) s.
Proof.
  split.
  - intros H. remember (Star (Class p)) as r eqn:Hr.
    induction H; try discriminate; [constructor|].
    injection Hr as ->. apply lang_Class_inv in H as (c & -> & Hc).
    constructor; auto.
  - induction 1 as [|c s Hc _ IH]; [constructor|].
    apply (lang_Star_app _ [c] s); [by constructor|done].
Qed.

Lemma lang_Plus_Class p s :
  lang (Plus (Class p)) s ↔ s ≠ [] ∧ Forall (λ c, p c = true) s.
Proof.
  unfold Plus. split.
  - intros H. apply lang_Cat_inv in H as (s1 & s2 & -> & H1 & H2).
    apply lang_Class_inv in H1 as (c & -> & Hc). apply lang_Star_Class in H2.
    split; [done|]. constructor; done.
  - intros [Hne Hall]. destruct Hall as [|c s Hc Hall]; [done|].
    apply (lang_Cat _ _ [c] s); [by constructor|by apply lang_Star_Class].
Qed.

Lemma In_tails {A} (l t : list A) : In t (tails l) ↔ t `suffix_of` l.
Proof.
  induction l as [|a l IH]; simpl.
  - split.
    + intros [<-|[]]. done.
    + intros H. left. symmetry. by apply suffix_nil_inv.
  - rewrite IH. split.
    + intros [<-|H]; [done|]. by apply suffix_cons_r.
    + intros [[|b k] Hk]; simpl in Hk; [auto|].
      injection Hk as _ ->. right. by exists k.
Qed.
End Matcher.

(** The two literals of [registerUser], characterised without the
    matcher. *)
Lemma nameRegex_test_spec (s : string) :
  RegExp_test nameRegex s = forallb word_char (list_ascii_of_string s) && negb (is_empty s).
Proof.
  unfold RegExp_test, nameRegex; simpl. rewrite !orb_false_r.
  apply eq_true_iff_eq. rewrite matches_spec, lang_Plus_Class, andb_true_iff, forallb_forall, negb_true_iff.
  rewrite Forall_forall. unfold is_empty.
  assert (list_ascii_of_string s ≠ [] ↔ (s =? "")%string = false) as ->.
  { destruct s; simpl; split; congruence. }
  split; intros [? ?]; split; auto; intros c Hc; [apply H0| apply H]; by apply list_elem_of_In.
Qed.

Lemma emailRegex_test_spec (s : string) :
  RegExp_test emailRegex s = ends_with "@noroff.no" s || ends_with "@stud.noroff.no" s.
Proof.
  unfold RegExp_test, emailRegex, ends_with. cbn [anchored_start anchored_end pattern].
  apply eq_true_iff_eq.
  rewrite existsb_exists, orb_true_iff, !bool_decide_eq_true.
  set (l := list_ascii_of_string s).
  split.
  - intros (t & Ht & Hm). apply In_tails in Ht. cbn [existsb] in Hm. rewrite orb_false_r in Hm.
    apply matches_spec in Hm.
    apply lang_Cat_inv in Hm as (s1 & s2 & -> & H1 & H2).
    apply lang_Chr_inv in H1 as ->.
    apply lang_Cat_inv in H2 as (s3 & s4 & -> & H3 & H4).
    apply lang_Lit in H4 as ->.
    apply lang_Alt_inv in H3 as [H3|H3].
    + apply lang_Lit in H3 as ->. right. exact Ht.
    + apply lang_Eps_inv in H3 as ->. left. exact Ht.
  - intros [H|H]; eexists; (split; [apply In_tails, H|]); vm_compute; reflexivity.
Qed.

(** ** login.js: the API client and the credential store *)

(** C9. [storeToken] called with a falsy argument (the empty string,
    [null], [undefined]) changes nothing: the stored token and every
    other entry of the storage, and the rest of the page, stay as they
    were. *)
Theorem storeToken_falsy_noop (token : JSValue) (w : World) :
  truthy token = false →
  storeToken token w = (Normal tt, w).
Proof.
  intros Hfalsy. unfold storeToken. now rewrite Hfalsy.
Qed.

Lemma storeToken_falsy_noop_witness :
  (truthy (JStr EmptyString) = false ∧
   storeToken (JStr EmptyString) (with_storage logged_in blank_world)
     = (Normal tt, with_storage logged_in blank_world)) ∧
  (truthy JNull = false ∧
   storeToken JNull (with_storage logged_in blank_world)
     = (Normal tt, with_storage logged_in blank_world)) ∧
  (truthy JUndefined = false ∧
   storeToken JUndefined (with_storage logged_in blank_world)
     = (Normal tt, with_storage logged_in blank_world)).
Proof.
  split; [|split]; (split; [reflexivity|]).
  - exact (storeToken_falsy_noop (JStr EmptyString) _ eq_refl).
  - exact (storeToken_falsy_noop JNull _ eq_refl).
  - exact (storeToken_falsy_noop JUndefined _ eq_refl).
Defined.

(** C1, as the code has it. For every response with a non-success
    status [sendApiRequest] fails. When the body parses to a JSON value
    other than [null], the error carries the server-supplied message if
    there is one, and the generic message if the value carries no
    (truthy) message. When the body does not parse, the failure is the
    parser's own SyntaxError, not the generic message. *)
Theorem sendApiRequest_non_ok_fails
    (url method : string) (body : JSValue) (w : World)
    (r : Response) (rest : list FetchResult) :
  network w = Responded r :: rest →
  ok r = false →
  ∃ e, (sendApiRequest url method body w).1 = Throw e ∧
    (∀ v text, json_body r = Parsed v → is_nullish v = false →
          truthy (opt_prop v "message") = true →
          to_string (opt_prop v "message") = Val text →
          e = ErrorObject "Error" text) ∧
    (∀ v, json_body r = Parsed v → is_nullish v = false →
          truthy (opt_prop v "message") = false →
          e = ErrorObject "Error" "Something went wrong") ∧
    (∀ parser_message, json_body r = Unparsable parser_message →
          e = ErrorObject "SyntaxError" parser_message).
Proof.
  intros Hnet Hok. unfold sendApiRequest. exec. rewrite Hnet, Hok. exec.
  destruct (json_body r) as [msg | v] eqn:Hbody; exec.
  - eexists; split; [reflexivity|]. repeat split; intros; congruence.
  - destruct (get_prop v "message") as [m | e] eqn:Hm; exec.
    + assert (is_nullish v = false) as Hv by (by destruct v).
      assert (opt_prop v "message" = m) as Hopt by (unfold opt_prop; by rewrite Hv, Hm).
      unfold js_or. destruct (truthy m) eqn:Htruthy; cbn [to_string].
      * destruct (to_string m) as [text|] eqn:Htext; exec;
          (eexists; split; [reflexivity|]);
          (split; [|split]); intros; simplify_eq; congruence.
      * eexists; split; [reflexivity|].
        (split; [|split]); intros; simplify_eq; congruence.
    + eexists; split; [reflexivity|].
      destruct v; try discriminate Hm; (split; [|split]); intros; simplify_eq; done.
Qed.

Lemma sendApiRequest_non_ok_fails_witness :
  network conflict_arrives = [Responded conflict] ∧ ok conflict = false ∧
  (sendApiRequest "https://v2.api.noroff.dev/auth/register" "POST" (JObj ∅)
     conflict_arrives).1
    = Throw (ErrorObject "Error" "Profile already exists").
Proof.
  split; [reflexivity|]. split; [reflexivity|].
  destruct (sendApiRequest_non_ok_fails
              "https://v2.api.noroff.dev/auth/register" "POST" (JObj ∅) conflict_arrives
              conflict [] eq_refl eq_refl) as (e & -> & Hmsg & _).
  f_equal. apply (Hmsg _ _ eq_refl); reflexivity.
Defined.

(** C1 as stated fails: a non-success response whose body is not JSON
    makes [sendApiRequest] fail with the parser's message, not with
    "Something went wrong". *)
Lemma sendApiRequest_unparsable_counterexample :
  ok bad_gateway_page = false ∧
  (sendApiRequest "https://v2.api.noroff.dev/auth/login" "POST" (JObj ∅)
     bad_gateway_arrives).1
    = Throw (ErrorObject "SyntaxError" "Unexpected token < in JSON at position 0") ∧
  ∀ e, (sendApiRequest "https://v2.api.noroff.dev/auth/login" "POST" (JObj ∅)
          bad_gateway_arrives).1 = Throw e →
       thrown_message e ≠ "Something went wrong".
Proof.
  split; [reflexivity|]. split; [reflexivity|].
  intros e [= <-]. discriminate.
Qed.

(** ** login.js: registration and login *)

(** C7, as the code has it. Each field is trimmed of surrounding white
    space first. For every registration input whose trimmed name
    contains a character outside letters, digits and underscore, or
    whose trimmed email does not end in an accepted Noroff domain
    suffix, or whose trimmed password is shorter than 8 characters,
    [registerUser] shows exactly one validation message, the one of the
    first check that fails in the order empty, name, email, password,
    and returns without issuing any network request. *)
Theorem registerUser_rejects_invalid (w : World) (eN eE eP : Element) :
  document w !! "registerName" = Some eN →
  document w !! "registerEmail" = Some eE →
  document w !! "registerPassword" = Some eP →
  (∃ c, c ∈ list_ascii_of_string (trim (value eN)) ∧ word_char c = false)
  ∨ (ends_with "@noroff.no" (trim (value eE)) = false
     ∧ ends_with "@stud.noroff.no" (trim (value eE)) = false)
  ∨ (String.length (trim (value eP)) < 8)%nat →
  ∃ msg,
    validation_failure (trim (value eN)) (trim (value eE)) (trim (value eP)) = Some msg
    ∧ registerUser w = alert msg w
    ∧ requests (registerUser w).2 = requests w.
Proof.
  intros HN HE HP Hbad.
  unfold registerUser, validation_failure. exec. rewrite HN, HE, HP.
  rewrite nameRegex_test_spec, emailRegex_test_spec.
  set (name := trim (value eN)) in *. set (email := trim (value eE)) in *.
  set (password := trim (value eP)) in *.
  destruct (is_empty name || is_empty email || is_empty password) eqn:Hempty;
    [eexists; split; [reflexivity|]; split; reflexivity|].
  apply orb_false_iff in Hempty as [Hempty _]. apply orb_false_iff in Hempty as [-> _].
  rewrite andb_true_r.
  destruct (forallb word_char (list_ascii_of_string name)) eqn:Hname; cbn [negb];
    [|eexists; split; [reflexivity|]; split; reflexivity].
  destruct (ends_with "@noroff.no" email || ends_with "@stud.noroff.no" email) eqn:Hemail;
    cbn [negb]; [|eexists; split; [reflexivity|]; split; reflexivity].
  destruct (String.length password <? 8)%nat eqn:Hpw;
    [eexists; split; [reflexivity|]; split; reflexivity|].
  exfalso. destruct Hbad as [(c & Hc & Hw)|[[H1 H2]|Hlen]].
  - rewrite forallb_forall in Hname. apply list_elem_of_In in Hc.
    apply Hname in Hc. congruence.
  - rewrite H1, H2 in Hemail. discriminate.
  - apply Nat.ltb_ge in Hpw. lia.
Qed.

Lemma registerUser_rejects_invalid_witness :
  ∃ msg,
    validation_failure (trim "bad name!") (trim "bob@noroff.no") (trim "12345678") = Some msg
    ∧ registerUser bad_name_registration = alert msg bad_name_registration
    ∧ requests (registerUser bad_name_registration).2 = requests bad_name_registration.
Proof.
  apply (registerUser_rejects_invalid bad_name_registration
           (input "bad name!" "registerForm") (input "bob@noroff.no" "registerForm")
           (input "12345678" "registerForm")); [reflexivity..|].
  left. exists " "%char. split; [|reflexivity].
  apply list_elem_of_In. vm_compute. tauto.
Defined.

(** C7 as stated fails on the entered values: a name entered with a
    leading space contains a character outside the class, yet it is
    trimmed before the check and the request goes out. *)
Lemma registerUser_untrimmed_counterexample :
  (" "%char ∈ list_ascii_of_string " bob" ∧ word_char " " = false) ∧
  requests (registerUser untrimmed_registration).2 =
    [mkRequest "https://v2.api.noroff.dev/auth/register" "POST"
       [("Content-Type", "application/json")]
       (Some (JObj (<["name" := JStr "bob"]>
                   (<["email" := JStr "bob@stud.noroff.no"]>
                   (<["password" := JStr "12345678"]> ∅)))))] ∧
  alerts (registerUser untrimmed_registration).2 =
    ["Registration successful! You can now log in."].
Proof.
  split; [split; [|reflexivity]|split].
  - apply list_elem_of_In. left. reflexivity.
  - vm_compute. reflexivity.
  - vm_compute. reflexivity.
Qed.


(** C8. For every login response that contains no access token, neither
    at the top level nor nested under [data], [loginUser] persists
    nothing to storage and does not navigate away from the login
    view. *)
Theorem loginUser_without_token (w : World) (r : Response) (rest : list FetchResult) :
  network w = Responded r :: rest →
  response_without_token r →
  localStorage (loginUser w).2 = localStorage w ∧
  location_href (loginUser w).2 = location_href w.
Proof.
  intros Hnet Hno.
  unfold loginUser, sendApiRequest, response_without_token, no_access_token in *.
  exec.
  do 3 (branch; exec; try done).
  rewrite Hnet. exec.
  destruct (json_body r) as [msg|v] eqn:Hbody.
  - run.
  - destruct Hno as [Hnested Htop].
    destruct (negb (ok r)); exec; [run|].
    destruct (get_prop v "data") as [data|] eqn:Hdata; exec; [|done].
    assert (is_nullish v = false) as Hv by (by destruct v).
    assert (opt_prop v "data" = data) as Hd by (unfold opt_prop; by rewrite Hv, Hdata).
    rewrite Hd in Hnested. rewrite Hnested. cbn [truthy].
    destruct (get_prop v "accessToken") as [top|] eqn:Htopv; exec; [|done].
    assert (opt_prop v "accessToken" = top) as Ht
      by (unfold opt_prop; by rewrite Hv, Htopv).
    rewrite Ht in Htop. subst top. cbn [truthy negb]. done.
Qed.

Lemma loginUser_without_token_witness :
  (network token_less_login = [Responded token_less] ∧ response_without_token token_less) ∧
  localStorage (loginUser token_less_login).2 = localStorage token_less_login ∧
  location_href (loginUser token_less_login).2 = location_href token_less_login.
Proof.
  assert (response_without_token token_less) as Hno by (split; reflexivity).
  split; [split; [reflexivity|exact Hno]|].
  exact (loginUser_without_token token_less_login token_less [] eq_refl Hno).
Defined.

(** ** post.js: the list renderer *)

Lemma bind_eq {A B} (m : M A) (k : A → M B) (w : World) :
  bind m k w = match m w with
               | (Normal a, w') => k a w'
               | (Throw e, w') => (Throw e, w')
               | (Pending, w') => (Pending, w')
               end.
Proof. reflexivity. Qed.

Lemma same_outside_document_refl w : same_outside_document w w.
Proof. by repeat split. Qed.

Lemma with_childNodes_id (e : Element) : with_childNodes (childNodes e) e = e.
Proof. by destruct e. Qed.

Lemma displayPosts_each_run (post : JSValue) (w : World) (e : Element) :
  document w !! "postsContainer" = Some e →
  displayPosts_each post w =
    match post_card (toLocaleDateString w) post with
    | Val c =>
        (Normal tt,
         with_document
           (<["postsContainer" := with_childNodes (childNodes e ++ [Card c]) e]> (document w)) w)
    | Err err => (Throw err, w)
    end.
Proof.
  intros He. unfold displayPosts_each, appendChild. exec.
  destruct (post_card _ post); exec; [|done]. by rewrite He.
Qed.

Lemma forEach_appends (posts : list JSValue) (w : World) (e : Element) :
  document w !! "postsContainer" = Some e →
  (forEach (JArr posts) displayPosts_each w).1 = render_outcome (toLocaleDateString w) posts ∧
  same_outside_document w (forEach (JArr posts) displayPosts_each w).2 ∧
  document (forEach (JArr posts) displayPosts_each w).2 =
    <["postsContainer" :=
        with_childNodes (childNodes e ++ map Card (rendered_cards (toLocaleDateString w) posts)) e]>
      (document w).
Proof.
  revert w e. induction posts as [|post posts IH]; intros w e He.
  - split; [done|]. split; [apply same_outside_document_refl|]. cbn.
    rewrite app_nil_r, with_childNodes_id. symmetry. by apply insert_id.
  - change (forEach (JArr (post :: posts)) displayPosts_each w)
      with (bind (displayPosts_each post)
                 (fun _ => forEach (JArr posts) displayPosts_each) w).
    rewrite bind_eq, (displayPosts_each_run post w e He). cbn [rendered_cards render_outcome].
    destruct (post_card (toLocaleDateString w) post) as [c|err] eqn:Hc.
    + set (e' := with_childNodes (childNodes e ++ [Card c]) e).
      set (w' := with_document _ w).
      assert (document w' !! "postsContainer" = Some e') as He'
        by apply lookup_insert_eq.
      destruct (IH w' e' He') as (Hout & Hsame & Hdoc).
      split; [exact Hout|]. split; [exact Hsame|].
      rewrite Hdoc. unfold w'. cbn [with_document document toLocaleDateString].
      rewrite insert_insert_eq. unfold e'. cbn [childNodes with_childNodes map].
      rewrite <- app_assoc. done.
    + cbn [map fst snd]. split; [done|]. split; [apply same_outside_document_refl|].
      rewrite app_nil_r, with_childNodes_id. symmetry. by apply insert_id.
Qed.

Lemma displayPosts_eq (posts : JSValue) (page : Z) (w : World) (e : Element) :
  document w !! "postsContainer" = Some e →
  displayPosts posts page w =
    forEach posts displayPosts_each
      (if page =? 1
       then with_document (<["postsContainer" := with_childNodes [] e]> (document w)) w
       else w).
Proof.
  intros He. unfold displayPosts, set_innerHTML. exec. rewrite He.
  destruct (page =? 1); exec; [|done]. by rewrite He.
Qed.

(** What [displayPosts] does to a page that has the container. *)
Lemma displayPosts_run (posts : list JSValue) (page : Z) (w : World) (e : Element) :
  document w !! "postsContainer" = Some e →
  (displayPosts (JArr posts) page w).1 = render_outcome (toLocaleDateString w) posts ∧
  same_outside_document w (displayPosts (JArr posts) page w).2 ∧
  document (displayPosts (JArr posts) page w).2 =
    <["postsContainer" :=
        with_childNodes
          ((if page =? 1 then [] else childNodes e)
             ++ map Card (rendered_cards (toLocaleDateString w) posts)) e]>
      (document w).
Proof.
  intros He. rewrite (displayPosts_eq _ page w e He).
  destruct (page =? 1).
  - set (w' := with_document _ w).
    destruct (forEach_appends posts w' (with_childNodes [] e)) as (Hout & Hsame & Hdoc).
    { apply lookup_insert_eq. }
    split; [exact Hout|]. split; [exact Hsame|].
    rewrite Hdoc. unfold w'.
    cbn [with_document document toLocaleDateString childNodes with_childNodes].
    by rewrite insert_insert_eq.
  - exact (forEach_appends posts w e He).
Qed.

(** [displayPosts], whatever it is given, touches the container only,
    and never stays pending. *)
Lemma displayPosts_frame (posts : JSValue) (page : Z) (w : World) :
  (displayPosts posts page w).1 ≠ Pending ∧
  same_outside_document w (displayPosts posts page w).2 ∧
  ∀ id, id ≠ "postsContainer" →
        document (displayPosts posts page w).2 !! id = document w !! id.
Proof.
  assert (∀ ld l, render_outcome ld l ≠ Pending) as Hnp.
  { intros ld l. induction l as [|post l IH]; [done|]. cbn.
    by destruct (post_card ld post). }
  destruct (document w !! "postsContainer") as [e|] eqn:He.
  - destruct (decide (is_array posts = true)) as [Harr|Hno].
    + destruct posts as [| | | | |l|]; try discriminate Harr.
      destruct (displayPosts_run l page w e He) as (Hout & Hsame & Hdoc).
      split; [rewrite Hout; apply Hnp|]. split; [done|].
      intros id Hid. rewrite Hdoc. by apply lookup_insert_ne.
    + rewrite (displayPosts_eq _ page w e He).
      destruct posts; try (by exfalso; apply Hno);
        (destruct (page =? 1); cbn; (split; [done|]);
         (split; [by repeat split|]); intros id Hid; try done;
         by apply lookup_insert_ne).
  - unfold displayPosts. exec. rewrite He.
    split; [done|]. split; [apply same_outside_document_refl|done].
Qed.

(** *** Post records, as JSON *)

Lemma lookup_field (key k : string) (v : option JSValue) (m : gmap string JSValue) :
  field key v m !! k =
    if bool_decide (k = key)
    then match v with
         | Some x => Some x
         | None => m !! k
         end
    else m !! k.
Proof.
  unfold field. case_bool_decide as Hk; destruct v; try done.
  - subst. apply lookup_insert_eq.
  - by apply lookup_insert_ne.
Qed.

Ltac post_lookup :=
  unfold post_json, get_prop; rewrite !lookup_field, ?lookup_empty;
  repeat first [rewrite bool_decide_eq_false_2 by done
               |rewrite bool_decide_eq_true_2 by done].

(** The properties the renderers read, on the JSON of a Post. *)
Lemma post_json_props (p : Post) :
  get_prop (post_json p) "title" = Val (from_option JStr JUndefined (post_title p)) ∧
  get_prop (post_json p) "body" = Val (from_option JStr JUndefined (post_text p)) ∧
  get_prop (post_json p) "created" = Val (from_option JStr JUndefined (post_created p)) ∧
  opt_prop (post_json p) "id" = JNum (post_id p) ∧
  (∃ media, get_prop (post_json p) "media" = Val media ∧
     opt_prop media "url" = from_option JStr JUndefined (image_of p) ∧
     opt_prop media "alt" = from_option JStr JUndefined (post_media p ≫= media_alt)) ∧
  (∃ author, get_prop (post_json p) "author" = Val author ∧
     opt_prop author "name" = from_option JStr JUndefined (author_of p)) ∧
  (∃ tags, get_prop (post_json p) "tags" = Val tags ∧
     opt_index tags 1 = from_option JStr JUndefined (location_of p)) ∧
  (∃ count, get_prop (post_json p) "_count" = Val count ∧
     opt_prop count "reactions" = from_option JNum JUndefined (reactions_of p)).
Proof.
  destruct p as [id title text media tags author created count].
  unfold image_of, author_of, location_of, reactions_of;
    cbn [post_id post_title post_text post_media post_tags post_author_name
         post_created post_reaction_count].
  split; [post_lookup; by destruct title|].
  split; [post_lookup; by destruct text|].
  split; [post_lookup; by destruct created|].
  split; [unfold opt_prop; cbn [is_nullish post_json]; post_lookup; done|].
  split; [|split; [|split]].
  - eexists. split; [post_lookup; reflexivity|].
    destruct media as [[u a]|]; [|done]. cbn.
    unfold opt_prop; cbn [is_nullish]. split; post_lookup; [by destruct u|by destruct a].
  - eexists. split; [post_lookup; reflexivity|].
    destruct author as [n|]; [|done]. cbn.
    unfold opt_prop; cbn [is_nullish]. post_lookup. by destruct n.
  - eexists. split; [post_lookup; reflexivity|].
    destruct tags as [ts|]; [|done]. cbn.
    rewrite list_lookup_fmap. by destruct (ts !! 1%nat).
  - eexists. split; [post_lookup; reflexivity|].
    destruct count as [c|]; [|done]. cbn.
    unfold opt_prop; cbn [is_nullish]. post_lookup. by destruct c.
Qed.

Lemma js_or_shown (o : option string) (d : string) :
  js_or (from_option JStr JUndefined o) (JStr d) = JStr (shown d o).
Proof.
  destruct o as [s|]; [|done]. unfold js_or, shown, is_empty. cbn.
  by destruct (String.eqb s "").
Qed.

Lemma js_or_shown_count (o : option Z) :
  js_or (from_option JNum JUndefined o) (JNum 0) = JNum (shown_count o).
Proof.
  destruct o as [n|]; [|done]. unfold js_or, shown_count. cbn.
  by destruct (Z.eqb_spec n 0) as [->|].
Qed.

(** What both renderers interpolate for a Post. *)
Lemma exprs_of_post (localeDate : JSValue → string) (p : Post) :
  card_exprs localeDate (post_json p) = Val (shown_values localeDate p) ∧
  detail_exprs localeDate (post_json p) = Val (shown_values localeDate p).
Proof.
  destruct (post_json_props p)
    as (Htitle & Hbody & Hcreated & _ & (media & Hmedia & Hurl & Halt)
        & (author & Hauthor & Hname) & (tags & Htags & Hloc)
        & (count & Hcount & Hreact)).
  unfold card_exprs, detail_exprs, locale_date, shown_values.
  rewrite Htags, Hcount, Hauthor, Hmedia, Hcreated, Htitle, Hbody.
  cbn [mbind Result_bind].
  assert (∃ s, to_string (from_option JStr JUndefined (post_created p)) = Val s)
    as [s ->] by (destruct (post_created p); by eexists).
  cbn [mbind Result_bind].
  by rewrite Hurl, Halt, Hloc, Hreact, Hname, !js_or_shown, js_or_shown_count.
Qed.

Lemma template_shown (quasis : list string) (localeDate : JSValue → string) (p : Post) :
  ∃ html, template quasis (shown_values localeDate p) = Val html.
Proof.
  unfold shown_values.
  do 9 (destruct quasis as [|? quasis]; [by eexists|]); by eexists.
Qed.

Lemma post_card_post (localeDate : JSValue → string) (p : Post) :
  ∃ html,
    template card_quasis (shown_values localeDate p) = Val html ∧
    post_card localeDate (post_json p) =
      Val (mkPostCard ["post"; "mb-4"; "p-3"; "border"; "rounded"] html (JNum (post_id p))).
Proof.
  destruct (template_shown card_quasis localeDate p) as [html Hhtml].
  exists html. split; [done|].
  unfold post_card. rewrite (proj1 (exprs_of_post localeDate p)). cbn [mbind Result_bind].
  rewrite Hhtml. cbn [mbind Result_bind].
  by destruct (post_json_props p) as (_ & _ & _ & -> & _).
Qed.

Lemma render_posts (localeDate : JSValue → string) (ps : list Post) :
  render_outcome localeDate (post_json <$> ps) = Normal tt ∧
  length (rendered_cards localeDate (post_json <$> ps)) = length ps.
Proof.
  induction ps as [|p ps [IHout IHlen]]; [done|].
  cbn [fmap list_fmap render_outcome rendered_cards].
  destruct (post_card_post localeDate p) as (html & _ & ->).
  cbn [length]. by rewrite IHout, IHlen.
Qed.

(** C5. For every sequence of posts and every page number,
    [displayPosts] leaves in the container, when the page number is 1,
    the new cards only (the prior content is cleared before they are
    appended), and when the page number is greater than 1 all the prior
    content followed by the new cards. Every Post record of the
    sequence gets its card. *)
Theorem displayPosts_clears_or_appends
    (posts : list JSValue) (page : Z) (w : World) (e : Element) :
  document w !! "postsContainer" = Some e →
  ∃ e',
    document (displayPosts (JArr posts) page w).2 !! "postsContainer" = Some e' ∧
    (page = 1 →
       childNodes e' = map Card (rendered_cards (toLocaleDateString w) posts)) ∧
    (1 < page →
       childNodes e' =
         (childNodes e ++ map Card (rendered_cards (toLocaleDateString w) posts))%list) ∧
    (∀ ps : list Post, posts = post_json <$> ps →
       length (rendered_cards (toLocaleDateString w) posts) = length ps).
Proof.
  intros He.
  destruct (displayPosts_run posts page w e He) as (_ & _ & Hdoc).
  eexists. split; [rewrite Hdoc; apply lookup_insert_eq|].
  cbn [childNodes with_childNodes].
  split; [|split].
  - intros ->. reflexivity.
  - intros Hpage. destruct (page =? 1) eqn:Heq; [lia|reflexivity].
  - intros ps ->. apply render_posts.
Qed.

Lemma append_empty_r (s : string) : s ++ EmptyString = s.
Proof.
  induction s as [|c s IH]; [done|].
  change (String c (s ++ EmptyString) = String c s). by rewrite IH.
Qed.

Lemma template_head (q : string) (qs : list string) (exprs : list JSValue) (html : string) :
  template (q :: qs) exprs = Val html → ∃ rest, html = q ++ rest.
Proof.
  destruct exprs as [|x exprs]; cbn [template].
  - intros [= <-]. exists EmptyString. by rewrite append_empty_r.
  - destruct (to_string x) as [s|]; cbn [mbind Result_bind]; [|done].
    destruct (template qs exprs) as [rest|]; cbn [mbind Result_bind]; [|done].
    intros [= <-]. by eexists.
Qed.

Lemma template_detail_nonempty (exprs : list JSValue) (html : string) :
  template detail_quasis exprs = Val html → String.eqb html "" = false.
Proof. intros [rest ->]%template_head. reflexivity. Qed.


(** ** post.js: the feed *)

Lemma fetchPosts_frame (page : option Z) (w : World) :
  localStorage (fetchPosts page w).2 = localStorage w ∧
  location_href (fetchPosts page w).2 = location_href w ∧
  (∀ id, id ≠ "postsContainer" → id ≠ "loadMoreBtn" →
         document (fetchPosts page w).2 !! id = document w !! id) ∧
  ∃ new, requests (fetchPosts page w).2 = (requests w ++ new)%list ∧ Forall is_feed_query new.
Proof.
  assert (∀ l : list Request, ∃ new, l = (l ++ new)%list ∧ Forall is_feed_query new) as Hnone.
  { intros l. exists []. by rewrite app_nil_r. }
  assert (∀ (l : list Request) r, is_feed_query r →
            ∃ new, (l ++ [r])%list = (l ++ new)%list ∧ Forall is_feed_query new) as Hone.
  { intros l r Hr. exists [r]. split; [done|]. by constructor. }
  unfold fetchPosts. exec.
  destruct (_ || _ || negb _); exec; [by auto 6|].
  assert (∀ hs, is_feed_query
            (mkRequest
               ("https://v2.api.noroff.dev/social/posts?limit=12&page="
                  ++ pretty (default 1 page) ++ "&_tag=petal-parlour&_author=true")
               "GET" hs None)) as Hq.
  { intros hs. split; [done|]. by exists (default 1 page). }
  destruct (network w) as [|[msg|r] rest]; exec; [by auto 6..|].
  destruct (ok r); exec; [|by auto 6].
  destruct (json_body r) as [msg|data]; exec; [by auto 6|].
  destruct (get_prop data "data") as [posts|]; exec; [|by auto 6].
  set (w1 := mkWorld _ _ _ _ _ _ _ _ _ _).
  destruct (displayPosts_frame posts (default 1 page) w1) as (_ & Hsame & Hdoc).
  destruct (displayPosts posts (default 1 page) w1) as [c w2].
  cbn [snd] in Hsame, Hdoc.
  destruct Hsame as (Hst & _ & Hhref & _ & _ & Hreq & _).
  unfold w1 in *. cbn [localStorage location_href requests document] in *.
  assert (∀ id, id ≠ "postsContainer" → id ≠ "loadMoreBtn" →
                document w2 !! id = document w !! id) as Hdoc'.
  { intros id H1 _. by rewrite Hdoc. }
  destruct c; exec; [|rewrite ?Hst, ?Hhref, ?Hreq; by auto 6..].
  destruct (get_prop data "meta") as [meta|]; exec;
    [|rewrite ?Hst, ?Hhref, ?Hreq; by auto 6].
  destruct (get_prop meta "isLastPage") as [last|]; exec;
    [|rewrite ?Hst, ?Hhref, ?Hreq; by auto 6].
  destruct (truthy last); exec; [|rewrite ?Hst, ?Hhref, ?Hreq; by auto 6].
  destruct (document w2 !! "loadMoreBtn"); exec; rewrite ?Hst, ?Hhref, ?Hreq;
    [|by auto 6].
  repeat split; [|by auto]. intros id H1 H2. rewrite lookup_insert_ne; auto.
Qed.

Lemma app_singleton_ne {A} (l : list A) (x : A) : (l ++ [x])%list ≠ l.
Proof. intros H. apply (f_equal length) in H. rewrite length_app in H. simpl in H. lia. Qed.

(** C2, as the code has it. After every completed [fetchPosts] cycle
    the "load more" control is disabled if the response's
    [meta.isLastPage] is true; a response whose [meta.isLastPage] is
    false leaves the control as it was: an enabled control stays
    enabled, and a control disabled before is not enabled again. *)
Theorem fetchPosts_latches_load_more
    (page : option Z) (w : World) (r : Response) (rest : list FetchResult) (data : JSValue) :
  network w = Responded r :: rest →
  json_body r = Parsed data →
  (fetchPosts page w).1 = Normal tt →
  requests (fetchPosts page w).2 ≠ requests w →
  alerts (fetchPosts page w).2 = alerts w →
  (truthy (opt_prop (opt_prop data "meta") "isLastPage") = true →
     ∃ e, document (fetchPosts page w).2 !! "loadMoreBtn" = Some e ∧ disabled e = true) ∧
  (truthy (opt_prop (opt_prop data "meta") "isLastPage") = false →
     document (fetchPosts page w).2 !! "loadMoreBtn" = document w !! "loadMoreBtn").
Proof.
  intros Hnet Hbody. unfold fetchPosts. exec.
  destruct (_ || _ || negb _); exec; [done|].
  rewrite Hnet. exec.
  destruct (ok r); exec; [|by intros _ _ ?%app_singleton_ne].
  rewrite Hbody. exec.
  destruct (get_prop data "data") as [posts|] eqn:Hposts; exec;
    [|by intros _ _ ?%app_singleton_ne].
  assert (is_nullish data = false) as Hdata by (by destruct data).
  set (w1 := mkWorld _ _ _ _ _ _ _ _ _ _).
  destruct (displayPosts_frame posts (default 1 page) w1) as (Hnp & Hsame & Hdoc).
  destruct (displayPosts posts (default 1 page) w1) as [c w2].
  cbn [fst snd] in Hnp, Hsame, Hdoc.
  destruct Hsame as (_ & _ & _ & Halerts & _).
  specialize (Hdoc "loadMoreBtn" ltac:(done)).
  unfold w1 in *. cbn [alerts document] in *.
  destruct c; exec; rewrite ?Halerts; [|by intros _ _ ?%app_singleton_ne|done].
  unfold opt_prop at 2 4. rewrite Hdata.
  destruct (get_prop data "meta") as [meta|] eqn:Hmeta; exec; rewrite ?Halerts;
    [|by intros _ _ ?%app_singleton_ne].
  assert (is_nullish meta = false ∨ get_prop meta "isLastPage" = Err (read_of_nullish "undefined" "isLastPage") ∨ get_prop meta "isLastPage" = Err (read_of_nullish "null" "isLastPage")) as Hm
    by (destruct meta; auto).
  unfold opt_prop.
  destruct (get_prop meta "isLastPage") as [last|] eqn:Hlast; exec; rewrite ?Halerts;
    [|by intros _ _ ?%app_singleton_ne].
  destruct Hm as [->|[?|?]]; [|done..].
  destruct (truthy last); exec.
  - destruct (document w2 !! "loadMoreBtn") as [btn|]; exec; rewrite ?Halerts;
      [|by intros _ _ ?%app_singleton_ne].
    intros _ _ _. split; [|done]. intros _. eexists. split; [apply lookup_insert_eq|done].
  - intros _ _ _. split; [done|]. by intros _.
Qed.

(** ** post.js: the form *)

Lemma resetForm_run (w : World) (f p b : Element) :
  document w !! "addPostForm" = Some f →
  document w !! "postId" = Some p →
  document w !! "submitButton" = Some b →
  (resetForm w).1 = Normal tt ∧
  same_outside_document w (resetForm w).2 ∧
  (∀ id,
     submit_listeners <$> document (resetForm w).2 !! id
       = (if bool_decide (id = "addPostForm")
          then Some (rebind L_updatePost L_createPost (submit_listeners f))
          else submit_listeners <$> document w !! id)).
Proof.
  intros Hf Hp Hb. unfold resetForm, form_reset, removeEventListener, addEventListener.
  exec. rewrite Hf. exec.
  rewrite !lookup_fmap, Hp. simpl (_ <$> Some p). exec.
  rewrite lookup_insert_ne by done. rewrite !lookup_fmap, Hb. simpl (_ <$> Some b). exec.
  do 2 rewrite lookup_insert_ne by done. rewrite !lookup_fmap, Hf. simpl (_ <$> Some f). exec.
  rewrite lookup_insert_eq. exec.
  split; [done|]. split; [by repeat split|].
  assert (∀ (c : bool) v (e : Element),
            submit_listeners (if c then with_value v e else e) = submit_listeners e) as Hkeep
    by (by intros [] ? ?).
  intros id. destruct (decide (id = "addPostForm")) as [->|Hid].
  - rewrite lookup_insert_eq. cbn. by rewrite Hkeep.
  - rewrite (bool_decide_eq_false_2 _ Hid). rewrite !lookup_insert_ne by done.
    destruct (decide (id = "submitButton")) as [->|?];
      [rewrite lookup_insert_eq, Hb; cbn; by rewrite Hkeep|rewrite lookup_insert_ne by done].
    destruct (decide (id = "postId")) as [->|?];
      [rewrite lookup_insert_eq, Hp; cbn; by rewrite Hkeep|rewrite lookup_insert_ne by done].
    rewrite lookup_fmap. destruct (document w !! id) as [e|]; [|done].
    cbn. by rewrite Hkeep.
Qed.

Lemma editPost_rebinds
    (postId title imageUrl body_ location postDate : string) (w : World) (f : Element) :
  is_Some (document w !! "title") → is_Some (document w !! "image") →
  is_Some (document w !! "location") → is_Some (document w !! "text") →
  is_Some (document w !! "postId") →
  document w !! "addPostForm" = Some f →
  submit_listeners <$>
    document (editPost postId title imageUrl body_ location postDate w).2 !! "addPostForm"
  = Some (rebind L_createPost L_updatePost (submit_listeners f)).
Proof.
  intros [e1 H1] [e2 H2] [e3 H3] [e4 H4] [e5 H5] Hf.
  unfold editPost, removeEventListener, addEventListener. exec.
  rewrite H1, H2, H3, H4, H5. exec.
  rewrite H1. exec.
  rewrite lookup_insert_ne, H2 by done. exec.
  rewrite !lookup_insert_ne, H3 by done. exec.
  rewrite !lookup_insert_ne, H4 by done. exec.
  rewrite !lookup_insert_ne, H5 by done. exec.
  rewrite !lookup_insert_ne by done.
  destruct (document w !! "submitButton") as [b|] eqn:Hb; exec.
  - rewrite !lookup_insert_ne, Hb by done. exec.
    rewrite !lookup_insert_ne, Hf by done. exec.
    rewrite lookup_insert_ne by done. rewrite !lookup_insert_ne, Hf by done. exec.
    rewrite lookup_insert_eq. exec. by rewrite lookup_insert_eq.
  - rewrite !lookup_insert_ne, Hf by done. exec.
    rewrite !lookup_insert_ne, Hf by done. exec.
    rewrite lookup_insert_eq. exec. by rewrite lookup_insert_eq.
Qed.

Lemma has_credentials_guard (w : World) :
  has_credentials w = true →
  item_missing (localStorage w !! "jwtToken") || item_missing (localStorage w !! "apiKey")
  = false.
Proof.
  unfold has_credentials. intros [H1 H2]%andb_true_iff.
  apply negb_true_iff in H1, H2. by rewrite H1, H2.
Qed.

Lemma updatePost_success_rebinds
    (w : World) (f p : Element) (r : Response) (rest : list FetchResult) (v : JSValue) :
  has_credentials w = true →
  document w !! "postId" = Some p → value p ≠ "" →
  is_Some (document w !! "image") → is_Some (document w !! "location") →
  is_Some (document w !! "text") → is_Some (document w !! "title") →
  is_Some (document w !! "submitButton") →
  document w !! "addPostForm" = Some f →
  network w = Responded r :: rest → ok r = true → json_body r = Parsed v →
  submit_listeners <$> document (updatePost w).2 !! "addPostForm"
  = Some (rebind L_updatePost L_createPost (submit_listeners f)).
Proof.
  intros Hcred Hp Hid [e2 H2] [e3 H3] [e4 H4] [e1 H1] [b Hb] Hf Hnet Hok Hbody.
  unfold updatePost, PostManager_fetchPosts. exec.
  rewrite Hp. exec.
  assert (is_empty (value p) = false) as -> by (by apply String.eqb_neq).
  rewrite orb_false_r, (has_credentials_guard w Hcred).
  rewrite H2, H3, H4, H1. exec. rewrite Hnet. exec. rewrite Hok, Hbody. exec.
  set (w1 := mkWorld _ _ _ _ _ _ _ _ _ _).
  destruct (resetForm_run w1 f p b Hf Hp Hb) as (Hout & _ & Hls).
  specialize (Hls "addPostForm"). rewrite bool_decide_eq_true_2 in Hls by done.
  destruct (resetForm w1) as [c w2]. cbn [fst snd] in Hout, Hls. subst c.
  destruct (fetchPosts_frame None w2) as (_ & _ & Hdoc & _).
  specialize (Hdoc "addPostForm" ltac:(done) ltac:(done)).
  destruct (fetchPosts None w2) as [c w3]. cbn [snd] in Hdoc.
  destruct c; exec; by rewrite Hdoc.
Qed.

Lemma updatePost_failure_keeps_document
    (w : World) (r : Response) (rest : list FetchResult) :
  network w = Responded r :: rest → ok r = false →
  document (updatePost w).2 = document w.
Proof.
  intros Hnet Hok. unfold updatePost. exec.
  destruct (document w !! "postId") as [p|]; exec; [|done].
  destruct (_ || _ || is_empty _); exec; [done|].
  destruct (document w !! "image"); exec; [|done].
  destruct (document w !! "location"); exec; [|done].
  destruct (document w !! "text"); exec; [|done].
  destruct (document w !! "title"); exec; [|done].
  rewrite Hnet. exec. rewrite Hok. exec.
  destruct (json_body r) as [msg|data]; exec; [done|].
  destruct (get_prop data "message") as [m|]; exec; [|done].
  destruct (to_string _); by exec.
Qed.

Lemma resetForm_frame (w : World) : same_outside_document w (resetForm w).2.
Proof.
  unfold resetForm, form_reset, removeEventListener, addEventListener.
  run; by repeat split.
Qed.

Lemma feed_query_carries (r : Request) : is_feed_query r → carries_feed_tag r.
Proof. intros [Hnone _] b Hb. congruence. Qed.

(** The requests of a successful submission's follow-up: the form is
    reset and the feed refreshed. *)
Lemma refresh_requests (w : World) :
  ∃ new,
    requests (bind resetForm (fun _ => PostManager_fetchPosts) w).2 = (requests w ++ new)%list
    ∧ Forall is_feed_query new.
Proof.
  rewrite bind_eq.
  destruct (resetForm_frame w) as (_ & _ & _ & _ & _ & Hreq & _).
  destruct (resetForm w) as [[| |] w1]; cbn [snd] in *;
    [|exists []; by rewrite app_nil_r..].
  destruct (fetchPosts_frame None w1) as (_ & _ & _ & new & Hnew & Hall).
  exists new. unfold PostManager_fetchPosts. by rewrite Hnew, Hreq.
Qed.

Lemma createPost_requests (w : World) :
  ∃ new, requests (createPost w).2 = (requests w ++ new)%list ∧ Forall carries_feed_tag new.
Proof.
  assert (∀ l : list Request, ∃ new, l = (l ++ new)%list ∧ Forall carries_feed_tag new)
    as Hnone by (intros l; exists []; by rewrite app_nil_r).
  assert (∀ (l : list Request) r, carries_feed_tag r →
            ∃ new, (l ++ [r])%list = (l ++ new)%list ∧ Forall carries_feed_tag new) as Hone.
  { intros l r Hr. exists [r]. split; [done|]. by constructor. }
  unfold createPost. exec.
  destruct (item_missing _ || item_missing _); exec; [done|].
  destruct (document w !! "title") as [e1|]; exec; [|done].
  destruct (document w !! "image") as [e2|]; exec; [|done].
  destruct (document w !! "location") as [e3|]; exec; [|done].
  destruct (document w !! "text") as [e4|]; exec; [|done].
  match goal with
  | |- context [mkRequest ?u ?m ?h (Some ?b)] =>
      set (req := mkRequest u m h (Some b));
      assert (carries_feed_tag req) as Hreq
  end.
  { intros b [= <-]. unfold first_tag, opt_prop, get_prop.
    rewrite !lookup_insert_ne by done. by rewrite lookup_insert_eq. }
  destruct (network w) as [|[msg|r] rest]; exec; [by auto..|].
  destruct (ok r); exec.
  - destruct (json_body r) as [msg|v]; exec; [by auto|].
    set (w1 := mkWorld _ _ _ _ _ _ _ _ _ _).
    destruct (refresh_requests w1) as (new & Hnew & Hall).
    rewrite bind_eq in Hnew.
    destruct (resetForm w1) as [[| |] w2]; exec; cbn [snd] in Hnew.
    + destruct (PostManager_fetchPosts w2) as [[| |] w3]; exec; cbn [snd] in Hnew;
        rewrite Hnew; unfold w1; cbn [requests]; rewrite <- app_assoc;
        (eexists; split; [reflexivity|]); constructor; auto;
        eapply Forall_impl; eauto using feed_query_carries.
    + rewrite Hnew. unfold w1. cbn [requests]. rewrite <- app_assoc.
      (eexists; split; [reflexivity|]); constructor; auto;
        eapply Forall_impl; eauto using feed_query_carries.
    + rewrite Hnew. unfold w1. cbn [requests]. rewrite <- app_assoc.
      (eexists; split; [reflexivity|]); constructor; auto;
        eapply Forall_impl; eauto using feed_query_carries.
  - destruct (json_body r) as [msg|v]; exec; [by auto|].
    destruct (get_prop v "message") as [m|]; exec; [|by auto].
    destruct (to_string _); exec; by auto.
Qed.

Lemma updatePost_requests (w : World) :
  ∃ new, requests (updatePost w).2 = (requests w ++ new)%list ∧ Forall carries_feed_tag new.
Proof.
  assert (∀ l : list Request, ∃ new, l = (l ++ new)%list ∧ Forall carries_feed_tag new)
    as Hnone by (intros l; exists []; by rewrite app_nil_r).
  assert (∀ (l : list Request) r, carries_feed_tag r →
            ∃ new, (l ++ [r])%list = (l ++ new)%list ∧ Forall carries_feed_tag new) as Hone.
  { intros l r Hr. exists [r]. split; [done|]. by constructor. }
  unfold updatePost. exec.
  destruct (document w !! "postId") as [p|]; exec; [|done].
  destruct (item_missing _ || item_missing _ || _); exec; [done|].
  destruct (document w !! "image") as [e2|]; exec; [|done].
  destruct (document w !! "location") as [e3|]; exec; [|done].
  destruct (document w !! "text") as [e4|]; exec; [|done].
  destruct (document w !! "title") as [e1|]; exec; [|done].
  match goal with
  | |- context [mkRequest ?u ?m ?h (Some ?b)] =>
      set (req := mkRequest u m h (Some b));
      assert (carries_feed_tag req) as Hreq
  end.
  { intros b [= <-]. unfold first_tag, opt_prop, get_prop.
    rewrite !lookup_insert_ne by done. by rewrite lookup_insert_eq. }
  destruct (network w) as [|[msg|r] rest]; exec; [by auto..|].
  destruct (ok r); exec.
  - destruct (json_body r) as [msg|v]; exec; [by auto|].
    set (w1 := mkWorld _ _ _ _ _ _ _ _ _ _).
    destruct (refresh_requests w1) as (new & Hnew & Hall).
    rewrite bind_eq in Hnew.
    destruct (resetForm w1) as [[| |] w2]; exec; cbn [snd] in Hnew.
    + destruct (PostManager_fetchPosts w2) as [[| |] w3]; exec; cbn [snd] in Hnew;
        rewrite Hnew; unfold w1; cbn [requests]; rewrite <- app_assoc;
        (eexists; split; [reflexivity|]); constructor; auto;
        eapply Forall_impl; eauto using feed_query_carries.
    + rewrite Hnew. unfold w1. cbn [requests]. rewrite <- app_assoc.
      (eexists; split; [reflexivity|]); constructor; auto;
        eapply Forall_impl; eauto using feed_query_carries.
    + rewrite Hnew. unfold w1. cbn [requests]. rewrite <- app_assoc.
      (eexists; split; [reflexivity|]); constructor; auto;
        eapply Forall_impl; eauto using feed_query_carries.
  - destruct (json_body r) as [msg|v]; exec; [by auto|].
    destruct (get_prop v "message") as [m|]; exec; [|by auto].
    destruct (to_string _); exec; by auto.
Qed.

(** C10. Every request body sent by [createPost] and by [updatePost]
    has a [tags] array whose first element is the feed tag
    "petal-parlour", the tag [fetchPosts] puts in the [_tag] filter of
    its query. *)
Theorem post_bodies_carry_feed_tag (w : World) :
  (∃ new, requests (createPost w).2 = (requests w ++ new)%list
          ∧ Forall carries_feed_tag new) ∧
  (∃ new, requests (updatePost w).2 = (requests w ++ new)%list
          ∧ Forall carries_feed_tag new) ∧
  (∀ page, ∃ new, requests (fetchPosts page w).2 = (requests w ++ new)%list
                  ∧ Forall is_feed_query new).
Proof.
  split; [apply createPost_requests|]. split; [apply updatePost_requests|].
  intros page. apply fetchPosts_frame.
Qed.

(** C4, as the code has it. When the stored token or API key is absent,
    [createPost], [updatePost], [fetchPosts] and [fetchSinglePost] issue
    no network request. [fetchPosts] and [fetchSinglePost] abort
    silently, leaving the page as it was; [createPost] and [updatePost]
    tell the user, with one alert, that they must be logged in. *)
Theorem missing_credentials_send_nothing (w : World) :
  localStorage w !! "jwtToken" = None ∨ localStorage w !! "apiKey" = None →
  (∀ page, fetchPosts page w = (Normal tt, w)) ∧
  (∀ postId, fetchSinglePost postId w = (Normal tt, w)) ∧
  createPost w = alert "You must be logged in to create a post." w ∧
  requests (updatePost w).2 = requests w ∧
  (is_Some (document w !! "postId") →
     updatePost w =
       alert "You must be logged in, have an API key, and a valid post to update." w).
Proof.
  intros Habsent.
  assert (item_missing (localStorage w !! "jwtToken")
          || item_missing (localStorage w !! "apiKey") = true) as Hguard.
  { destruct Habsent as [-> | ->]; [done|]. apply orb_true_r. }
  repeat split.
  - intros page. unfold fetchPosts. exec. by rewrite Hguard.
  - intros postId. unfold fetchSinglePost. exec. by rewrite Hguard.
  - unfold createPost. exec. by rewrite Hguard.
  - unfold updatePost. exec. rewrite Hguard.
    destruct (document w !! "postId"); by exec.
  - intros [p Hp]. unfold updatePost. exec. by rewrite Hp, Hguard.
Qed.
(** ** The claims on sample pages *)

Lemma fetchPosts_latches_load_more_witness :
  ∃ e, document (fetchPosts (Some 1) last_page_arrives).2 !! "loadMoreBtn" = Some e
       ∧ disabled e = true.
Proof.
  assert ((fetchPosts (Some 1) last_page_arrives).1 = Normal tt) as Hdone
    by (vm_compute; reflexivity).
  assert (requests (fetchPosts (Some 1) last_page_arrives).2 ≠ requests last_page_arrives)
    as Hsent by (vm_compute; discriminate).
  assert (alerts (fetchPosts (Some 1) last_page_arrives).2 = alerts last_page_arrives)
    as Hquiet by (vm_compute; reflexivity).
  destruct (fetchPosts_latches_load_more (Some 1) last_page_arrives
              (feed_response [post_json bare_post] true) []
              (feed_data [post_json bare_post] true)
              eq_refl eq_refl Hdone Hsent Hquiet) as [Hlast _].
  apply Hlast. reflexivity.
Defined.

(** C2 as stated fails: once a last page has disabled the control, a
    later completed cycle whose response says [isLastPage: false] (the
    refresh of the first page) leaves it disabled. *)
Lemma fetchPosts_stays_disabled_counterexample :
  disabled <$> document two_cycles !! "loadMoreBtn" = Some false ∧
  (fetchPosts None (fetchPosts (Some 2) two_cycles).2).1 = Normal tt ∧
  alerts (fetchPosts None (fetchPosts (Some 2) two_cycles).2).2 = [] ∧
  length (requests (fetchPosts None (fetchPosts (Some 2) two_cycles).2).2) = 2%nat ∧
  opt_prop (opt_prop (feed_data [post_json bare_post] false) "meta") "isLastPage"
    = JBool false ∧
  disabled <$>
    document (fetchPosts None (fetchPosts (Some 2) two_cycles).2).2 !! "loadMoreBtn"
    = Some true.
Proof. repeat split; vm_compute; reflexivity. Qed.

Lemma displayPosts_clears_or_appends_witness :
  ∃ e',
    document (displayPosts (JArr (post_json <$> [bare_post; full_post])) 2 second_page).2
      !! "postsContainer" = Some e' ∧
    childNodes e' =
      (Markup "<p>earlier</p>"
         :: map Card (rendered_cards (toLocaleDateString second_page)
                        (post_json <$> [bare_post; full_post])))%list ∧
    length (rendered_cards (toLocaleDateString second_page)
              (post_json <$> [bare_post; full_post])) = 2%nat.
Proof.
  destruct (displayPosts_clears_or_appends (post_json <$> [bare_post; full_post]) 2
              second_page (panel [Markup "<p>earlier</p>"] []) eq_refl)
    as (e' & He' & _ & Happend & Hall).
  exists e'. split; [exact He'|].
  split; [apply Happend; lia|apply (Hall _ eq_refl)].
Defined.

(** C3, as the code has it. The form's submit binding is a two-state
    toggle: [editPost] rebinds the submit action from create to update
    (when the form and its fields are there), and every submission in
    edit mode whose update succeeds rebinds the form back to create.
    A submission whose update the server refuses leaves the document,
    and with it the update binding, as it was. *)
Theorem submit_binding_toggles :
  rebind L_createPost L_updatePost [L_createPost] = [L_updatePost] ∧
  rebind L_updatePost L_createPost [L_updatePost] = [L_createPost] ∧
  (∀ (postId title imageUrl body_ location postDate : string) (w : World) (f : Element),
     is_Some (document w !! "title") → is_Some (document w !! "image") →
     is_Some (document w !! "location") → is_Some (document w !! "text") →
     is_Some (document w !! "postId") →
     document w !! "addPostForm" = Some f →
     submit_listeners <$>
       document (editPost postId title imageUrl body_ location postDate w).2 !! "addPostForm"
     = Some (rebind L_createPost L_updatePost (submit_listeners f))) ∧
  (∀ (w : World) (f p : Element) (r : Response) (rest : list FetchResult) (v : JSValue),
     has_credentials w = true →
     document w !! "postId" = Some p → value p ≠ "" →
     is_Some (document w !! "image") → is_Some (document w !! "location") →
     is_Some (document w !! "text") → is_Some (document w !! "title") →
     is_Some (document w !! "submitButton") →
     document w !! "addPostForm" = Some f →
     network w = Responded r :: rest → ok r = true → json_body r = Parsed v →
     submit_listeners <$> document (updatePost w).2 !! "addPostForm"
     = Some (rebind L_updatePost L_createPost (submit_listeners f))) ∧
  (∀ (w : World) (r : Response) (rest : list FetchResult),
     network w = Responded r :: rest → ok r = false →
     document (updatePost w).2 = document w).
Proof.
  split; [reflexivity|]. split; [reflexivity|].
  split; [apply editPost_rebinds|]. split; [apply updatePost_success_rebinds|].
  apply updatePost_failure_keeps_document.
Qed.

Lemma submit_binding_toggles_witness :
  submit_listeners <$>
    document (editPost "7" "Peonies" EmptyString "In bloom" "Oslo" "2024-09-29"
                new_post_form).2 !! "addPostForm"
  = Some [L_updatePost] ∧
  submit_listeners <$> document (updatePost edit_succeeds).2 !! "addPostForm"
  = Some [L_createPost].
Proof.
  destruct submit_binding_toggles as (Hto_edit & Hto_create & Hedit & Hupdate & _).
  split.
  - rewrite <- Hto_edit.
    apply (Hedit _ _ _ _ _ _ new_post_form (panel [] [L_createPost]));
      first [reflexivity | eexists; reflexivity].
  - rewrite <- Hto_create.
    apply (Hupdate edit_succeeds (panel [] [L_updatePost]) (input "7" "addPostForm")
             updated [Responded (feed_response [post_json bare_post] false)]
             (JObj (<["data" := post_json full_post]> ∅)));
      first [reflexivity | discriminate | eexists; reflexivity].
Defined.

(** C3 as stated fails: a submission in edit mode whose update the
    server refuses leaves the form bound to update. *)
Lemma updatePost_failure_stays_bound_counterexample :
  submit_listeners <$> document edit_fails !! "addPostForm" = Some [L_updatePost] ∧
  alerts (updatePost edit_fails).2 = ["Post update failed: Profile already exists"] ∧
  submit_listeners <$> document (updatePost edit_fails).2 !! "addPostForm"
    = Some [L_updatePost].
Proof. repeat split; vm_compute; reflexivity. Qed.

Lemma missing_credentials_send_nothing_witness :
  localStorage logged_out !! "jwtToken" = None ∧
  fetchPosts (Some 1) logged_out = (Normal tt, logged_out) ∧
  fetchSinglePost "7" logged_out = (Normal tt, logged_out) ∧
  createPost logged_out = alert "You must be logged in to create a post." logged_out ∧
  requests (updatePost logged_out).2 = requests logged_out.
Proof.
  split; [reflexivity|].
  destruct (missing_credentials_send_nothing logged_out (or_introl eq_refl))
    as (Hfeed & Hsingle & Hcreate & Hupdate & _).
  split; [apply Hfeed|]. split; [apply Hsingle|]. split; [exact Hcreate|exact Hupdate].
Defined.

(** C4 as stated fails: without credentials [createPost] and
    [updatePost] do show a message. *)
Lemma createPost_logged_out_alerts_counterexample :
  localStorage logged_out !! "jwtToken" = None ∧
  localStorage logged_out !! "apiKey" = None ∧
  alerts logged_out = [] ∧
  alerts (createPost logged_out).2 = ["You must be logged in to create a post."] ∧
  alerts (updatePost logged_out).2
    = ["You must be logged in, have an API key, and a valid post to update."].
Proof. repeat split; vm_compute; reflexivity. Qed.

(** [deletePost] has no guard on the credentials: logged out, its
    request goes out all the same, with the absent token spelled
    [null]. *)
Example deletePost_logged_out :
  requests (deletePost "7" logged_out).2 =
    [mkRequest "https://v2.api.noroff.dev/social/posts/7" "DELETE"
       [("Authorization", "Bearer null"); ("x-Noroff-api-key", "null")] None].
Proof. vm_compute. reflexivity. Qed.

(** A post with no optional field: every default shows. *)
Example bare_post_card :
  card_exprs (fun _ => "9/29/2024") (post_json bare_post) =
    Val [JStr "/assets/default-image.png"; JStr "Post Image"; JStr "Unknown";
         JStr "9/29/2024"; JNum 0; JStr "Untitled Post"; JStr "No content";
         JStr "Anonymous"].
Proof. vm_compute. reflexivity. Qed.

(** A post whose title is an object with a [toString] property of its
    own cannot be rendered: the template literal throws. *)
Example unprintable_title :
  post_card (fun _ => "9/29/2024")
    (JObj (<["title" := JObj (<["toString" := JNum 1]> ∅)]> ∅))
  = Err cannot_convert.
Proof. vm_compute. reflexivity. Qed.

(** Creating a post from the form: the body of the request, and the
    feed refresh that follows. *)
Example createPost_request :
  map (fun r => (method r, first_tag <$> body r))
      (requests (createPost (with_network [Responded updated] new_post_form)).2)
  = [("POST", Some (JStr "petal-parlour")); ("GET", None)].
Proof. vm_compute. reflexivity. Qed.
(** ** Further properties

    *** Strings and patterns *)

(** ** Strings: trimming *)

Lemma list_ascii_of_string_app (a b : string) :
  list_ascii_of_string (a ++ b) = (list_ascii_of_string a ++ list_ascii_of_string b)%list.
Proof.
  induction a as [|c a IH]; [done|].
  change (c :: list_ascii_of_string (a ++ b)
          = c :: (list_ascii_of_string a ++ list_ascii_of_string b)%list).
  by rewrite IH.
Qed.

Lemma ends_with_iff (suffix s : string) :
  ends_with suffix s = true ↔ ∃ front, s = front ++ suffix.
Proof.
  unfold ends_with. rewrite bool_decide_eq_true. split.
  - intros [k Hk]. exists (string_of_list_ascii k).
    rewrite <- (string_of_list_ascii_of_string s), Hk.
    rewrite <- (string_of_list_ascii_of_string (string_of_list_ascii k ++ suffix)).
    by rewrite list_ascii_of_string_app, list_ascii_of_string_of_list_ascii.
  - intros [front ->]. exists (list_ascii_of_string front).
    apply list_ascii_of_string_app.
Qed.

(** The e-mail pattern of [registerUser] accepts exactly the strings
    that end with [@noroff.no] or with [@stud.noroff.no]; what stands
    before the suffix is not constrained. *)
Theorem emailRegex_accepts_noroff_suffixes (s : string) :
  RegExp_test emailRegex s = true ↔
  ∃ front, s = front ++ "@noroff.no" ∨ s = front ++ "@stud.noroff.no".
Proof.
  rewrite emailRegex_test_spec, orb_true_iff, !ends_with_iff.
  split.
  - intros [[front ->]|[front ->]]; exists front; auto.
  - intros [front [->| ->]]; [left|right]; by exists front.
Qed.

(** *** login.js *)

(** [handleLogout] always completes: it removes the token and the API
    key from the storage, keeps every other stored item, sends the
    browser to the login page, and neither touches the document nor
    alerts nor calls the network. *)
Theorem handleLogout_clears_credentials (w : World) :
  (handleLogout w).1 = Normal tt ∧
  localStorage (handleLogout w).2 !! "jwtToken" = None ∧
  localStorage (handleLogout w).2 !! "apiKey" = None ∧
  (∀ key, key ≠ "jwtToken" → key ≠ "apiKey" →
          localStorage (handleLogout w).2 !! key = localStorage w !! key) ∧
  location_href (handleLogout w).2 = "login.html" ∧
  document (handleLogout w).2 = document w ∧
  alerts (handleLogout w).2 = alerts w ∧
  requests (handleLogout w).2 = requests w.
Proof.
  unfold handleLogout, clearAuthData. exec.
  split; [done|]. split; [|split; [|split]]; [| |intros key H1 H2|done].
  - rewrite lookup_delete_ne by done. apply lookup_delete_eq.
  - apply lookup_delete_eq.
  - by rewrite !lookup_delete_ne.
Qed.


Ltac two_states :=
  split; [done|]; split; [done|]; intros ?; try discriminate;
  first [right; by eauto | left; by eauto].

(** On a page that has both inputs [loginUser] never lets an error
    escape, waits only for a network that does not answer, and ends
    either logged in (token stored, index page, no alert) or where it
    started with exactly one alert more. *)
Theorem loginUser_ends_in_one_of_two_states (w : World) :
  is_Some (document w !! "loginEmail") →
  is_Some (document w !! "loginPassword") →
  (∀ e, (loginUser w).1 ≠ Throw e) ∧
  ((loginUser w).1 = Pending → network w = []) ∧
  ((loginUser w).1 = Normal tt →
     (location_href (loginUser w).2 = "index.html"
      ∧ alerts (loginUser w).2 = alerts w
      ∧ ∃ s, localStorage (loginUser w).2 = <["jwtToken" := s]> (localStorage w))
     ∨ (location_href (loginUser w).2 = location_href w
        ∧ localStorage (loginUser w).2 = localStorage w
        ∧ ∃ msg, alerts (loginUser w).2 = (alerts w ++ [msg])%list)).
Proof.
  intros [eE HE] [eP HP].
  unfold loginUser, sendApiRequest, storeToken. exec. rewrite HE, HP. exec.
  destruct (_ || _); exec; [two_states|].
  destruct (network w) as [|[msg|r] rest]; exec; [two_states..|].
  destruct (negb (ok r)); exec.
  - destruct (json_body r) as [msg|v]; exec; [two_states|].
    destruct (get_prop v "message") as [m|]; exec; [|two_states].
    destruct (to_string _); exec; two_states.
  - destruct (json_body r) as [msg|v]; exec; [two_states|].
    destruct (get_prop v "data") as [data|]; exec; [|two_states].
    destruct (truthy (opt_prop data "accessToken")) eqn:Hnested; exec.
    + rewrite Hnested. exec.
      destruct (to_string _) as [s|]; exec; [|two_states].
      two_states.
    + destruct (get_prop v "accessToken") as [top|]; exec; [|two_states].
      destruct (truthy top) eqn:Htop; exec; [|two_states].
      destruct (to_string _) as [s|]; exec; [|two_states].
      two_states.
Qed.

Lemma validation_failure_code (name email password : string) :
  validation_failure name email password =
    if is_empty name || is_empty email || is_empty password then
      Some "All required fields must be filled in."
    else if negb (RegExp_test nameRegex name) then
      Some "The name must only contain letters, numbers, and underscores."
    else if negb (RegExp_test emailRegex email) then
      Some "Please use a valid Noroff email address."
    else if (String.length password <? 8)%nat then
      Some "Password must be at least 8 characters long."
    else None.
Proof.
  unfold validation_failure. rewrite nameRegex_test_spec, emailRegex_test_spec.
  destruct (is_empty name) eqn:Hn; [done|]. cbn [orb negb]. by rewrite andb_true_r.
Qed.

(** [registerUser] calls the API exactly when the trimmed name, e-mail
    and password pass the validation, and then once, with the trimmed
    values; an invalid form sends nothing. *)
Theorem registerUser_sends_iff_valid (w : World) (eN eE eP : Element) :
  document w !! "registerName" = Some eN →
  document w !! "registerEmail" = Some eE →
  document w !! "registerPassword" = Some eP →
  requests (registerUser w).2 =
    (requests w ++
       match validation_failure (trim (value eN)) (trim (value eE)) (trim (value eP)) with
       | None => [register_request (trim (value eN)) (trim (value eE)) (trim (value eP))]
       | Some _ => []
       end)%list.
Proof.
  intros HN HE HP. rewrite validation_failure_code.
  unfold registerUser, form_reset, sendApiRequest, register_request, api_request. exec.
  rewrite HN, HE, HP.
  destruct (_ || _ || _); exec; [by rewrite app_nil_r|].
  destruct (negb (RegExp_test nameRegex _)); exec; [by rewrite app_nil_r|].
  destruct (negb (RegExp_test emailRegex _)); exec; [by rewrite app_nil_r|].
  destruct (_ <? _)%nat; exec; [by rewrite app_nil_r|].
  destruct (network w) as [|[msg|r] rest]; exec; [done..|].
  destruct (negb (ok r)); exec.
  - destruct (json_body r) as [msg|v]; exec; [done|].
    destruct (get_prop v "message") as [m|]; exec; [|done].
    by destruct (to_string _).
  - destruct (json_body r) as [msg|v]; exec; [done|].
    by destruct (document w !! "registerForm").
Qed.

(** *** post.js: the feed *)

Lemma feed_guard (w : World) :
  item_missing (localStorage w !! "jwtToken") || item_missing (localStorage w !! "apiKey")
  || negb (bool_decide (is_Some (document w !! "postsContainer")))
  = negb (feed_ready w).
Proof.
  unfold feed_ready, has_credentials.
  by destruct (item_missing _), (item_missing _), (bool_decide _).
Qed.

(** [fetchPosts] sends one request, the feed query of the page asked
    for (page 1 by default) with the stored credentials, when both
    credentials are stored and the page has the feed container, and no
    request otherwise; rendering the answer sends nothing. *)
Theorem fetchPosts_sends_iff_ready (page : option Z) (w : World) :
  requests (fetchPosts page w).2 =
    (requests w ++ if feed_ready w then [feed_request (default 1 page) w] else [])%list.
Proof.
  unfold fetchPosts, feed_request. exec. rewrite feed_guard.
  destruct (feed_ready w); exec; [|by rewrite app_nil_r].
  destruct (network w) as [|[msg|r] rest]; exec; [done..|].
  destruct (ok r); exec; [|done].
  destruct (json_body r) as [msg|data]; exec; [done|].
  destruct (get_prop data "data") as [posts|]; exec; [|done].
  set (w1 := mkWorld _ _ _ _ _ _ _ _ _ _).
  destruct (displayPosts_frame posts (default 1 page) w1) as (_ & Hsame & _).
  destruct (displayPosts posts (default 1 page) w1) as [c w2].
  cbn [snd] in Hsame. destruct Hsame as (_ & _ & _ & _ & _ & Hreq & _).
  unfold w1 in Hreq. cbn [requests] in Hreq.
  destruct c; exec; [|done..].
  destruct (get_prop data "meta") as [meta|]; exec; [|done].
  destruct (get_prop meta "isLastPage") as [last|]; exec; [|done].
  destruct (truthy last); exec; [|done].
  by destruct (document w2 !! "loadMoreBtn").
Qed.

Section PostProperties.
Local Open Scope list_scope.

Lemma worlds_agree (w w1 w2 : World) :
  same_outside_document w w1 → same_outside_document w w2 →
  document w1 = document w2 → w1 = w2.
Proof.
  destruct w, w1, w2. unfold same_outside_document. cbn.
  intros (-> & -> & -> & -> & -> & -> & -> & -> & ->)
         (-> & -> & -> & -> & -> & -> & -> & -> & ->) ->. done.
Qed.

Lemma render_outcome_app (ld : JSValue → string) (l1 l2 : list JSValue) :
  render_outcome ld l1 = Normal tt →
  render_outcome ld (l1 ++ l2) = render_outcome ld l2 ∧
  rendered_cards ld (l1 ++ l2) = rendered_cards ld l1 ++ rendered_cards ld l2.
Proof.
  induction l1 as [|post l1 IH]; cbn; [done|].
  destruct (post_card ld post); [|done].
  intros H. destruct (IH H) as [-> ->]. done.
Qed.

Lemma same_outside_document_trans (w1 w2 w3 : World) :
  same_outside_document w1 w2 → same_outside_document w2 w3 → same_outside_document w1 w3.
Proof.
  unfold same_outside_document.
  intros (?&?&?&?&?&?&?&?&?) (?&?&?&?&?&?&?&?&?).
  repeat split; congruence.
Qed.

(** Showing a first page and then a later page leaves the page as
    showing both sequences of posts at once as page 1 does: the cards
    of later pages follow the cards already there. *)
Theorem displayPosts_pages_accumulate
    (first later : list JSValue) (page : Z) (w : World) :
  is_Some (document w !! "postsContainer") →
  page ≠ 1 →
  (displayPosts (JArr first) 1 w).1 = Normal tt →
  displayPosts (JArr later) page (displayPosts (JArr first) 1 w).2
    = displayPosts (JArr (first ++ later)) 1 w.
Proof.
  intros [e He] Hpage Hfirst.
  destruct (displayPosts_run first 1 w e He) as (Hout1 & Hsame1 & Hdoc1).
  destruct (displayPosts_run (first ++ later) 1 w e He) as (Hout & Hsame & Hdoc).
  set (w1 := (displayPosts (JArr first) 1 w).2) in *.
  assert (document w1 !! "postsContainer"
          = Some (with_childNodes
                    (map Card (rendered_cards (toLocaleDateString w) first)) e)) as He1.
  { rewrite Hdoc1. apply lookup_insert_eq. }
  destruct (displayPosts_run later page w1 _ He1) as (Hout2 & Hsame2 & Hdoc2).
  assert (toLocaleDateString w1 = toLocaleDateString w) as Hld by apply Hsame1.
  rewrite Hout1 in Hfirst.
  destruct (render_outcome_app (toLocaleDateString w) first later Hfirst) as [Ho Hc].
  apply (proj2 (Z.eqb_neq _ _)) in Hpage.
  rewrite Hpage, Hld in Hdoc2. rewrite Hld in Hout2. cbn [Z.eqb] in Hdoc1, Hdoc.
  destruct (displayPosts (JArr later) page w1) as [c2 w2].
  destruct (displayPosts (JArr (first ++ later)) 1 w) as [c w'].
  cbn [fst snd] in *. f_equal; [congruence|].
  apply (worlds_agree w).
  - eapply same_outside_document_trans; [exact Hsame1|exact Hsame2].
  - exact Hsame.
  - rewrite Hdoc2, Hdoc, Hdoc1, Hc, insert_insert_eq, map_app. done.
Qed.

(** *** post.js: the form *)

Lemma str_or_filled (a d : string) : d ≠ EmptyString → str_or a d ≠ EmptyString.
Proof.
  intros Hd. unfold str_or, is_empty. destruct (String.eqb_spec a ""); congruence.
Qed.

Lemma str_or_empty (a : string) : str_or a EmptyString = a.
Proof. unfold str_or, is_empty. by destruct (String.eqb_spec a ""). Qed.

Lemma feed_query_complete (r : Request) : is_feed_query r → complete_post r.
Proof. intros [Hnone _] b Hb. congruence. Qed.

Ltac complete_body :=
  intros b [= <-]; unfold filled, opt_index, opt_prop, get_prop, get_index; cbn;
  repeat (rewrite ?lookup_insert_eq; rewrite ?lookup_insert_ne by done; cbn);
  repeat split; eauto using str_or_filled.

Ltac after_refresh P Hreq Hnew Hall w1 lift_query :=
  rewrite Hnew; unfold w1; cbn [requests]; rewrite <- app_assoc;
  (eexists; split; [reflexivity|]); constructor; auto;
  eapply Forall_impl; eauto using lift_query.

(** Every post [createPost] and [updatePost] send has a non-empty
    title, text, location tag and image address, and its image is
    described by its title: an empty field of the form goes out as its
    default. *)
Theorem submitted_posts_are_complete (w : World) :
  (∃ new, requests (createPost w).2 = requests w ++ new ∧ Forall complete_post new) ∧
  (∃ new, requests (updatePost w).2 = requests w ++ new ∧ Forall complete_post new).
Proof.
  assert (∀ l : list Request, ∃ new, l = l ++ new ∧ Forall complete_post new)
    as Hnone by (intros l; exists []; by rewrite app_nil_r).
  assert (∀ (l : list Request) r, complete_post r →
            ∃ new, l ++ [r] = l ++ new ∧ Forall complete_post new) as Hone.
  { intros l r Hr. exists [r]. split; [done|]. by constructor. }
  split.
  - unfold createPost. exec.
    destruct (item_missing _ || item_missing _); exec; [done|].
    destruct (document w !! "title") as [e1|]; exec; [|done].
    destruct (document w !! "image") as [e2|]; exec; [|done].
    destruct (document w !! "location") as [e3|]; exec; [|done].
    destruct (document w !! "text") as [e4|]; exec; [|done].
    match goal with
    | |- context [mkRequest ?u ?m ?h (Some ?b)] =>
        set (req := mkRequest u m h (Some b));
        assert (complete_post req) as Hreq by complete_body
    end.
    destruct (network w) as [|[msg|r] rest]; exec; [by auto..|].
    destruct (ok r); exec.
    + destruct (json_body r) as [msg|v]; exec; [by auto|].
      set (w1 := mkWorld _ _ _ _ _ _ _ _ _ _).
      destruct (refresh_requests w1) as (new & Hnew & Hall).
      rewrite bind_eq in Hnew.
      destruct (resetForm w1) as [[| |] w2]; exec; cbn [snd] in Hnew;
        [destruct (PostManager_fetchPosts w2) as [[| |] w3]; exec; cbn [snd] in Hnew|..];
        after_refresh complete_post Hreq Hnew Hall w1 feed_query_complete.
    + destruct (json_body r) as [msg|v]; exec; [by auto|].
      destruct (get_prop v "message") as [m|]; exec; [|by auto].
      destruct (to_string _); exec; by auto.
  - unfold updatePost. exec.
    destruct (document w !! "postId") as [p|]; exec; [|done].
    destruct (item_missing _ || item_missing _ || _); exec; [done|].
    destruct (document w !! "image") as [e2|]; exec; [|done].
    destruct (document w !! "location") as [e3|]; exec; [|done].
    destruct (document w !! "text") as [e4|]; exec; [|done].
    destruct (document w !! "title") as [e1|]; exec; [|done].
    match goal with
    | |- context [mkRequest ?u ?m ?h (Some ?b)] =>
        set (req := mkRequest u m h (Some b));
        assert (complete_post req) as Hreq by complete_body
    end.
    destruct (network w) as [|[msg|r] rest]; exec; [by auto..|].
    destruct (ok r); exec.
    + destruct (json_body r) as [msg|v]; exec; [by auto|].
      set (w1 := mkWorld _ _ _ _ _ _ _ _ _ _).
      destruct (refresh_requests w1) as (new & Hnew & Hall).
      rewrite bind_eq in Hnew.
      destruct (resetForm w1) as [[| |] w2]; exec; cbn [snd] in Hnew;
        [destruct (PostManager_fetchPosts w2) as [[| |] w3]; exec; cbn [snd] in Hnew|..];
        after_refresh complete_post Hreq Hnew Hall w1 feed_query_complete.
    + destruct (json_body r) as [msg|v]; exec; [by auto|].
      destruct (get_prop v "message") as [m|]; exec; [|by auto].
      destruct (to_string _); exec; by auto.
Qed.

Lemma fetchPosts_never_throws (page : option Z) (w : World) e :
  (fetchPosts page w).1 ≠ Throw e.
Proof.
  unfold fetchPosts.
  cbv beta iota zeta delta [bind getToken getApiKey localStorage_getItem getElementById].
  destruct (_ || _ || negb _); [done|].
  unfold try_catch.
  match goal with
  | |- context [match ?m with _ => _ end] => destruct m as [[a|e'|] w1]
  end; done.
Qed.

(** What [updatePost] sends first, with credentials and a post id. *)
Lemma updatePost_sends (w : World) (p e1 e2 e3 e4 : Element) :
  has_credentials w = true →
  document w !! "postId" = Some p → value p ≠ EmptyString →
  document w !! "title" = Some e1 → document w !! "image" = Some e2 →
  document w !! "location" = Some e3 → document w !! "text" = Some e4 →
  ∃ refresh,
    requests (updatePost w).2 =
      requests w
        ++ update_request w (value p) (value e1) (value e2) (value e3) (value e4) :: refresh
    ∧ Forall is_feed_query refresh.
Proof.
  intros Hcred Hp Hid H1 H2 H3 H4.
  unfold updatePost, update_request, feed_tag. exec. rewrite Hp. exec.
  assert (is_empty (value p) = false) as -> by (by apply String.eqb_neq).
  rewrite orb_false_r, (has_credentials_guard w Hcred).
  rewrite H2, H3, H4, H1. exec.
  assert (∀ l r, ∃ refresh : list Request, l ++ [r] = l ++ r :: refresh
                                           ∧ Forall is_feed_query refresh) as Hone
    by (intros l r; by exists []).
  destruct (network w) as [|[msg|r] rest]; exec; [by auto..|].
  destruct (ok r); exec.
  - destruct (json_body r) as [msg|v]; exec; [by auto|].
    set (w1 := mkWorld _ _ _ _ _ _ _ _ _ _).
    destruct (refresh_requests w1) as (new & Hnew & Hall).
    rewrite bind_eq in Hnew.
    destruct (resetForm w1) as [[| |] w2]; exec; cbn [snd] in Hnew;
      [destruct (PostManager_fetchPosts w2) as [[| |] w3]; exec; cbn [snd] in Hnew|..];
      rewrite Hnew; unfold w1; cbn [requests]; rewrite <- app_assoc; by eauto.
  - destruct (json_body r) as [msg|v]; exec; [by auto|].
    destruct (get_prop v "message") as [m|]; exec; [|by auto].
    destruct (to_string _); exec; by auto.
Qed.

(** [deletePost] sends its DELETE for the post and treats status 204
    as the only success: it then shows the success message and
    refreshes the feed. Any other status, 200 included, ends in the
    failure alert, with nothing else changed. *)
Theorem deletePost_succeeds_on_204_only
    (postId : string) (w : World) (r : Response) (rest : list FetchResult) :
  network w = Responded r :: rest →
  let sent := with_network rest (with_requests (requests w ++ [delete_request w postId]) w) in
  deletePost postId w =
    if status r =? 204
    then PostManager_fetchPosts
           (with_alerts (alerts w ++ ["Post deleted successfully!"]) sent)
    else alert "Error deleting post: Failed to delete post" sent.
Proof.
  intros Hnet. unfold deletePost, delete_request, PostManager_fetchPosts. exec.
  rewrite Hnet. exec. destruct (status r =? 204); exec; [|done].
  match goal with
  | |- context [fetchPosts None ?w1] =>
      pose proof (fetchPosts_never_throws None w1) as Hno;
      destruct (fetchPosts None w1) as [[|e|] w2]
  end; try done.
  by destruct (Hno e).
Qed.

(** What [editPost] makes of a page that has the five fields. *)
Lemma editPost_run
    (postId title imageUrl body_ location postDate : string) (w : World)
    (e1 e2 e3 e4 e5 : Element) :
  document w !! "title" = Some e1 → document w !! "image" = Some e2 →
  document w !! "location" = Some e3 → document w !! "text" = Some e4 →
  document w !! "postId" = Some e5 →
  let w' := (editPost postId title imageUrl body_ location postDate w).2 in
  (editPost postId title imageUrl body_ location postDate w).1 = Normal tt ∧
  same_outside_document w w' ∧
  document w' !! "title" = Some (with_value title e1) ∧
  document w' !! "image" = Some (with_value imageUrl e2) ∧
  document w' !! "location" = Some (with_value (str_or location "Unknown") e3) ∧
  document w' !! "text" = Some (with_value (str_or body_ "No content") e4) ∧
  document w' !! "postId" = Some (with_value postId e5) ∧
  document w' !! "submitButton"
    = with_textContent "Resubmit" <$> document w !! "submitButton" ∧
  (∀ id, id ∉ form_ids → document w' !! id = document w !! id).
Proof.
  intros H1 H2 H3 H4 H5.
  assert (∀ id, id ∉ form_ids →
            id ≠ "title" ∧ id ≠ "image" ∧ id ≠ "location" ∧ id ≠ "text" ∧
            id ≠ "postId" ∧ id ≠ "submitButton" ∧ id ≠ "addPostForm") as Hids.
  { intros id Hid. unfold form_ids in Hid. rewrite !not_elem_of_cons in Hid. tauto. }
  unfold editPost, removeEventListener, addEventListener. exec.
  rewrite H1, H2, H3, H4, H5. exec.
  rewrite H1. exec.
  rewrite lookup_insert_ne, H2 by done. exec.
  rewrite !lookup_insert_ne, H3 by done. exec.
  rewrite !lookup_insert_ne, H4 by done. exec.
  rewrite !lookup_insert_ne, H5 by done. exec.
  rewrite !lookup_insert_ne by done. rewrite str_or_empty.
  destruct (document w !! "submitButton") as [b|] eqn:Hb; exec.
  - rewrite !lookup_insert_ne, Hb by done. exec.
    rewrite !lookup_insert_ne by done.
    destruct (document w !! "addPostForm") as [f|] eqn:Hf; exec.
    + rewrite lookup_insert_ne by done. rewrite !lookup_insert_ne, Hf by done. exec.
      rewrite lookup_insert_eq. exec.
      split; [done|]. split; [by repeat split|].
      repeat split;
        try (intros id (?&?&?&?&?&?&?)%Hids);
        rewrite ?lookup_insert_ne by done; try done; by rewrite lookup_insert_eq.
    + split; [done|]. split; [by repeat split|].
      repeat split;
        try (intros id (?&?&?&?&?&?&?)%Hids);
        rewrite ?lookup_insert_ne by done; try done; by rewrite lookup_insert_eq.
  - rewrite !lookup_insert_ne by done.
    destruct (document w !! "addPostForm") as [f|] eqn:Hf; exec.
    + rewrite !lookup_insert_ne, Hf by done. exec.
      rewrite lookup_insert_eq. exec.
      split; [done|]. split; [by repeat split|].
      repeat split;
        try (intros id (?&?&?&?&?&?&?)%Hids);
        rewrite ?lookup_insert_ne by done; try done; by rewrite lookup_insert_eq.
    + split; [done|]. split; [by repeat split|].
      repeat split;
        try (intros id (?&?&?&?&?&?&?)%Hids);
        rewrite ?lookup_insert_ne by done; try done; by rewrite lookup_insert_eq.
Qed.

Lemma update_request_storage (w w' : World) (postId title image location text : string) :
  localStorage w' = localStorage w →
  update_request w' postId title image location text
  = update_request w postId title image location text.
Proof. intros H. unfold update_request. by rewrite H. Qed.

(** Editing a post and submitting the form as [editPost] filled it
    sends the update for that post with the values handed to
    [editPost]. *)
Theorem editPost_then_updatePost
    (postId title imageUrl body_ location postDate : string) (w : World) :
  has_credentials w = true → postId ≠ EmptyString →
  is_Some (document w !! "title") → is_Some (document w !! "image") →
  is_Some (document w !! "location") → is_Some (document w !! "text") →
  is_Some (document w !! "postId") →
  ∃ refresh,
    requests (updatePost (editPost postId title imageUrl body_ location postDate w).2).2 =
      requests w
        ++ update_request w postId title imageUrl
             (str_or location "Unknown") (str_or body_ "No content") :: refresh
    ∧ Forall is_feed_query refresh.
Proof.
  intros Hcred Hid [e1 H1] [e2 H2] [e3 H3] [e4 H4] [e5 H5].
  pose proof (editPost_run postId title imageUrl body_ location postDate w
                e1 e2 e3 e4 e5 H1 H2 H3 H4 H5) as Hrun.
  cbv zeta in Hrun.
  set (w1 := (editPost postId title imageUrl body_ location postDate w).2) in *.
  destruct Hrun as (_ & Hsame & T & I & L & X & P & _).
  destruct Hsame as (Hst & _ & _ & _ & _ & Hreq & _).
  assert (has_credentials w1 = true) as Hcred1.
  { unfold has_credentials in *. by rewrite Hst. }
  destruct (updatePost_sends w1 _ _ _ _ _ Hcred1 P Hid T I L X) as (refresh & Hsent & Hq).
  exists refresh. split; [|done].
  rewrite Hsent, Hreq. cbn [value with_value].
  by rewrite (update_request_storage w w1 _ _ _ _ _ Hst).
Qed.

Lemma resetForm_without_button (w : World) (f p : Element) :
  document w !! "addPostForm" = Some f →
  document w !! "postId" = Some p →
  document w !! "submitButton" = None →
  (resetForm w).1 = Throw (write_of_null "textContent") ∧
  same_outside_document w (resetForm w).2 ∧
  submit_listeners <$> document (resetForm w).2 !! "addPostForm"
    = Some (submit_listeners f).
Proof.
  intros Hf Hp Hb. unfold resetForm, form_reset. exec. rewrite Hf. exec.
  rewrite !lookup_fmap, Hp. simpl (_ <$> Some p). exec.
  rewrite lookup_insert_ne by done. rewrite !lookup_fmap, Hb. cbn.
  split; [done|]. split; [by repeat split|].
  rewrite lookup_insert_ne by done. rewrite lookup_fmap, Hf. cbn.
  by case_bool_decide.
Qed.

(** On a page whose form has no submit button, a post the server
    accepted is reported twice: [createPost] shows the success message
    and then, as [resetForm] fails on the missing button, the failure
    message; the feed is not refreshed. *)
Theorem createPost_without_button_reports_twice
    (w : World) (e1 e2 e3 e4 : Element) (r : Response) (rest : list FetchResult)
    (v : JSValue) :
  has_credentials w = true →
  document w !! "title" = Some e1 → document w !! "image" = Some e2 →
  document w !! "location" = Some e3 → document w !! "text" = Some e4 →
  is_Some (document w !! "addPostForm") → is_Some (document w !! "postId") →
  document w !! "submitButton" = None →
  network w = Responded r :: rest → ok r = true → json_body r = Parsed v →
  (createPost w).1 = Normal tt ∧
  alerts (createPost w).2 =
    alerts w ++ ["Post created successfully!";
                 "Post creation failed: Cannot set properties of null (setting 'textContent')"] ∧
  requests (createPost w).2 =
    requests w ++ [create_request w (value e1) (value e2) (value e3) (value e4)] ∧
  network (createPost w).2 = rest.
Proof.
  intros Hcred H1 H2 H3 H4 [f Hf] [p Hp] Hb Hnet Hok Hbody.
  unfold createPost, create_request, feed_tag. exec.
  rewrite (has_credentials_guard w Hcred), H1, H2, H3, H4. exec.
  rewrite Hnet. exec. rewrite Hok, Hbody. exec.
  set (w1 := mkWorld _ _ _ _ _ _ _ _ _ _).
  destruct (resetForm_without_button w1 f p Hf Hp Hb) as (Hout & Hsame & _).
  destruct (resetForm w1) as [c w2]. cbn [fst snd] in *. subst c.
  destruct Hsame as (_ & _ & _ & Ha & _ & Hr & Hn & _).
  exec. rewrite Ha, Hr, Hn. unfold w1. cbn. rewrite <- app_assoc. done.
Qed.

(** *** post.js: the detail view *)

(** What [displaySinglePost] makes of a Post. *)
Lemma displaySinglePost_post (p : Post) (w : World) :
  ∃ html,
    template detail_quasis (shown_values (toLocaleDateString w) p) = Val html ∧
    displaySinglePost (post_json p) w =
      match document w !! "postDetails" with
      | Some e =>
          (Normal tt,
           with_document (<["postDetails" := with_childNodes [Markup html] e]> (document w))
             (with_title (shown "Anonymous" (author_of p) ++ "'s Post") w))
      | None => console_error "Post details container not found!" w
      end.
Proof.
  destruct (exprs_of_post (toLocaleDateString w) p) as [_ Hdetail].
  destruct (template_shown detail_quasis (toLocaleDateString w) p) as [html Hhtml].
  exists html. split; [done|].
  destruct (post_json_props p) as (_ & _ & _ & _ & _ & (author & Hauthor & Hname) & _).
  unfold displaySinglePost, set_innerHTML. exec.
  destruct (document w !! "postDetails") as [e|] eqn:He; [|done].
  rewrite Hauthor, Hname, js_or_shown, Hdetail. exec. rewrite Hhtml. exec. rewrite He.
  by rewrite (template_detail_nonempty _ _ Hhtml).
Qed.

(** With both credentials stored, [fetchSinglePost] sends its request
    and then: on a status outside 200 to 299 it logs the failure and
    alerts [Error fetching post details: undefined]; on a body whose
    [data] is a post it is [displaySinglePost] of that post; on a body
    without [data] it alerts the TypeError of reading [author] of
    undefined. *)
Theorem fetchSinglePost_shows_or_reports
    (postId : string) (w : World) (r : Response) (rest : list FetchResult) :
  has_credentials w = true →
  network w = Responded r :: rest →
  let sent := with_network rest (with_requests (requests w ++ [single_request w postId]) w) in
  (ok r = false →
     fetchSinglePost postId w
       = (Normal tt, fetch_failed sent ["Failed to fetch post:"; "Error fetching post details:"]
                    "undefined")) ∧
  (∀ (m : gmap string JSValue) (p : Post),
     ok r = true → json_body r = Parsed (JObj m) → m !! "data" = Some (post_json p) →
     fetchSinglePost postId w = PostRenderer_displaySinglePost (post_json p) sent) ∧
  (∀ m : gmap string JSValue,
     ok r = true → json_body r = Parsed (JObj m) → m !! "data" = None →
     is_Some (document w !! "postDetails") →
     fetchSinglePost postId w
       = (Normal tt,
          fetch_failed sent ["Error fetching post details:"]
            "Cannot read properties of undefined (reading 'author')")).
Proof.
  intros Hcred Hnet. cbv zeta.
  unfold fetchSinglePost, single_request, fetch_failed, PostRenderer_displaySinglePost.
  exec. rewrite (has_credentials_guard w Hcred), Hnet. exec.
  split; [intros ->; exec; by rewrite <- app_assoc|]. split.
  - intros m p -> Hbody Hdata. exec. rewrite Hbody. exec.
    unfold get_prop. rewrite Hdata. cbn [from_option id]. exec.
    match goal with |- context [displaySinglePost _ ?w1] => set (w1' := w1) end.
    destruct (displaySinglePost_post p w1') as (html & _ & ->).
    destruct (document w1' !! "postDetails"); by exec.
  - intros m -> Hbody Hdata [e He]. exec. rewrite Hbody. exec.
    unfold get_prop at 1. rewrite Hdata. cbn [from_option id]. exec.
    unfold displaySinglePost. exec. rewrite He. by exec.
Qed.

End PostProperties.

(** ** The further properties on sample pages *)

Lemma loginUser_ends_in_one_of_two_states_witness :
  (loginUser token_less_login).1 ≠ Throw cannot_convert.
Proof.
  apply (loginUser_ends_in_one_of_two_states token_less_login);
    eexists; reflexivity.
Defined.

Lemma registerUser_sends_iff_valid_witness :
  requests (registerUser valid_registration).2
    = [register_request "bob" "bob@stud.noroff.no" "12345678"] ∧
  requests (registerUser bad_name_registration).2 = [].
Proof.
  split.
  - exact (registerUser_sends_iff_valid valid_registration
             (input "bob" "registerForm") (input "bob@stud.noroff.no" "registerForm")
             (input "12345678" "registerForm") eq_refl eq_refl eq_refl).
  - exact (registerUser_sends_iff_valid bad_name_registration
             (input "bad name!" "registerForm") (input "bob@noroff.no" "registerForm")
             (input "12345678" "registerForm") eq_refl eq_refl eq_refl).
Defined.

Lemma displayPosts_pages_accumulate_witness :
  displayPosts (JArr [post_json full_post]) 2
    (displayPosts (JArr [post_json bare_post]) 1 second_page).2
  = displayPosts (JArr [post_json bare_post; post_json full_post]) 1 second_page.
Proof.
  apply (displayPosts_pages_accumulate [post_json bare_post] [post_json full_post] 2
           second_page).
  - eexists. reflexivity.
  - lia.
  - vm_compute. reflexivity.
Defined.

Lemma deletePost_succeeds_on_204_only_witness :
  alerts (deletePost "7" edit_succeeds).2 = ["Error deleting post: Failed to delete post"].
Proof.
  rewrite (deletePost_succeeds_on_204_only "7" edit_succeeds updated
             [Responded (feed_response [post_json bare_post] false)] eq_refl).
  reflexivity.
Defined.

Lemma editPost_then_updatePost_witness :
  ∃ refresh,
    requests (updatePost (editPost "7" "Roses" EmptyString EmptyString EmptyString
                            "2024-09-29" new_post_form).2).2 =
      (update_request new_post_form "7" "Roses" EmptyString "Unknown" "No content"
         :: refresh)%list
    ∧ Forall is_feed_query refresh.
Proof.
  apply (editPost_then_updatePost "7" "Roses" EmptyString EmptyString EmptyString
           "2024-09-29" new_post_form);
    first [reflexivity | discriminate | eexists; reflexivity].
Defined.

Lemma createPost_without_button_reports_twice_witness :
  alerts (createPost buttonless_form).2 =
    ["Post created successfully!";
     "Post creation failed: Cannot set properties of null (setting 'textContent')"] ∧
  length (requests (createPost buttonless_form).2) = 1%nat.
Proof.
  assert (∀ id e, document buttonless_form !! id = Some e →
                  is_Some (document buttonless_form !! id)) as Hthere by (by eexists).
  destruct (createPost_without_button_reports_twice buttonless_form
           (input "Peonies" "addPostForm") (input EmptyString "addPostForm")
           (input "Oslo" "addPostForm") (input "In bloom" "addPostForm") created
           [Responded (feed_response [post_json bare_post] false)]
           (JObj (<["data" := JObj (<["name" := JStr "bob"]> ∅)]> ∅))
           eq_refl eq_refl eq_refl eq_refl eq_refl
           (Hthere "addPostForm" _ eq_refl) (Hthere "postId" _ eq_refl)
           eq_refl eq_refl eq_refl eq_refl)
    as (_ & Halerts & Hsent & _).
  split; [exact Halerts|]. rewrite Hsent. reflexivity.
Defined.

Lemma fetchSinglePost_shows_or_reports_witness :
  fetchSinglePost "8" post_arrives
  = PostRenderer_displaySinglePost (post_json full_post)
      (with_network []
         (with_requests [single_request post_arrives "8"] post_arrives)).
Proof.
  destruct (fetchSinglePost_shows_or_reports "8" post_arrives updated [] eq_refl eq_refl)
    as (_ & Hshows & _).
  exact (Hshows (<["data" := post_json full_post]> ∅) full_post eq_refl eq_refl eq_refl).
Defined.

